(** * Formater.py: a tab-delimited file to CSV / JSON / XML converter

    A shallow embedding of [src/Formater.py] and of the parts of the
    Python standard library it drives ([open] in text mode, [csv.reader],
    [csv.writer], [csv.DictReader], [json.dump], [xml.etree.ElementTree]),
    each one configured the way the script calls it, followed by the
    properties of the conversion.

    Conventions.
    - A Python [bytes] is a [list byte]; a Python [str] is a [string].  The
      script decodes its input as latin-1, which maps the byte [b] to the
      code point [b]; the 8-bit [ascii] type is exactly the code point
      range U+0000..U+00FF, so every [str] the script ever holds is a
      [string].
    - A computation that can raise returns a [result]; a lazy iterator that
      can raise in the middle is the list of items it yields before
      stopping, paired with the exception that stopped it, if any.
    - A Python [dict] is an association list in insertion order.
    - Text written to a file opened in text mode is written as it is: the
      line separator of the platform is the line feed. *)

From Stdlib Require Import List Bool Arith NArith Lia.
From Stdlib Require Import Strings.String Strings.Ascii Strings.Byte.
From Stdlib Require Import Numbers.DecimalString.
Import ListNotations.

Local Open Scope list_scope.
Local Open Scope string_scope.

(** ** Characters and exceptions *)

Definition TAB : ascii := "009"%char.
Definition LF : ascii := "010"%char.
Definition CR : ascii := "013"%char.
Definition DQUOTE : ascii := "034"%char.
Definition COMMA : ascii := ","%char.

(** One-character strings, for writing inputs down. *)
Definition tab : string := String TAB EmptyString.
Definition nl : string := String LF EmptyString.
Definition cr : string := String CR EmptyString.
Definition dq : string := String DQUOTE EmptyString.

(** The messages of [_csv.Error] that the reader of this dialect can raise. *)
Inductive csv_error_msg : Type :=
| field_larger_than_field_limit
| new_line_character_seen_in_unquoted_field.

(** The exceptions that can leave one of the three converters. *)
Inductive exception : Type :=
| FileNotFoundError (path : string)
| csv_Error (msg : csv_error_msg)
| TypeError
| ValueError.

Inductive result (A : Type) : Type :=
| Ok (a : A)
| Raise (e : exception).
Arguments Ok {A} a.
Arguments Raise {A} e.

Definition bind {A B : Type} (r : result A) (k : A -> result B) : result B :=
  match r with
  | Ok a => k a
  | Raise e => Raise e
  end.

Notation "x <- r ;; k" := (bind r (fun x => k))
  (at level 61, r at next level, right associativity).

(** ** Strings *)

Module Str.

(** [c in s] for a character [c]. *)
Fixpoint mem (c : ascii) (s : string) : bool :=
  match s with
  | EmptyString => false
  | String a r => Ascii.eqb a c || mem c r
  end.


(** [c * n] *)
Fixpoint repeat (c : ascii) (n : nat) : string :=
  match n with
  | O => EmptyString
  | S k => String c (repeat c k)
  end.

(** [not s] *)
Definition is_empty (s : string) : bool :=
  match s with
  | EmptyString => true
  | String _ _ => false
  end.

(** [s.startswith(c)] for a one-character prefix. *)
Definition starts_with (c : ascii) (s : string) : bool :=
  match s with
  | EmptyString => false
  | String a _ => Ascii.eqb a c
  end.

(** [sub in s] *)
Fixpoint contains (sub s : string) : bool :=
  String.prefix sub s ||
  match s with
  | EmptyString => false
  | String _ r => contains sub r
  end.

(** [s.split(sep)] for a one-character separator. *)
Fixpoint split (sep : ascii) (s : string) : list string :=
  match s with
  | EmptyString => [EmptyString]
  | String a r =>
      if Ascii.eqb a sep then EmptyString :: split sep r
      else match split sep r with
           | [] => [String a EmptyString]
           | f :: fs => String a f :: fs
           end
  end.

(** [len(s)] as a binary number: lengths are compared with limits that
    are too large to write in unary. *)
Definition len (s : string) : N := N.of_nat (String.length s).

End Str.

(** ** Opening the input: [open(input_file, 'r', encoding='latin-1', errors='replace')] *)

(** The latin-1 codec maps byte [b] to the code point [b].  No byte is
    unmappable, so the [errors='replace'] handler is never called. *)
Fixpoint decode_latin1 (bs : list byte) : string :=
  match bs with
  | [] => EmptyString
  | b :: r => String (ascii_of_byte b) (decode_latin1 r)
  end.

(** Text mode with [newline=None]: every "\r\n" and every lone "\r" is
    handed to the program as "\n". *)
Fixpoint universal_newlines (s : string) : string :=
  match s with
  | EmptyString => EmptyString
  | String c r =>
      if Ascii.eqb c CR then
        match r with
        | String c' r' =>
            if Ascii.eqb c' LF then String LF (universal_newlines r')
            else String LF (universal_newlines r)
        | EmptyString => String LF EmptyString
        end
      else String c (universal_newlines r)
  end.

(** Iterating over a text file yields its lines, each with its final "\n";
    the last one has none when the file does not end with a newline. *)
Fixpoint splitlines (s : string) : list string :=
  match s with
  | EmptyString => []
  | String c r =>
      if Ascii.eqb c LF then String c EmptyString :: splitlines r
      else match splitlines r with
           | [] => [String c EmptyString]
           | l :: ls => String c l :: ls
           end
  end.

(** The lines the [infile] iterator hands to the csv reader. *)
Definition infile_lines (content : list byte) : list string :=
  splitlines (universal_newlines (decode_latin1 content)).

(** ** [csv.reader(infile, delimiter='\t')]

    The parser of CPython's [_csv] module, for the dialect the script builds:
    excel with the delimiter replaced by a tab, that is the double quote as
    quotechar, doublequote on, no escapechar, skipinitialspace off, strict
    off and quoting QUOTE_MINIMAL.  The two states that only an escapechar
    reaches are left out.  The parser is the one of CPython 3.11, for which
    the NUL character is a character like the others. *)

Inductive ParserState : Type :=
| START_RECORD
| START_FIELD
| IN_FIELD
| IN_QUOTED_FIELD
| QUOTE_IN_QUOTED_FIELD
| EAT_CRNL.

Definition ParserState_eqb (a b : ParserState) : bool :=
  match a, b with
  | START_RECORD, START_RECORD
  | START_FIELD, START_FIELD
  | IN_FIELD, IN_FIELD
  | IN_QUOTED_FIELD, IN_QUOTED_FIELD
  | QUOTE_IN_QUOTED_FIELD, QUOTE_IN_QUOTED_FIELD
  | EAT_CRNL, EAT_CRNL => true
  | _, _ => false
  end.

(** What the parser is fed: a character of the line, or the end-of-line
    marker that follows the last character of every line. *)
Inductive pchar : Type :=
| Chr (c : ascii)
| EOL.

Record ReaderObj : Type := mkReader {
  state : ParserState;
  fields : list string;   (* the fields of the record so far *)
  field : string          (* the characters of the field so far *)
}.

(** [csv.field_size_limit()], 128 * 1024 unless the program changes it. *)
Definition field_limit : N := 131072.

Definition parse_reset : ReaderObj :=
  {| state := START_RECORD; fields := []; field := EmptyString |}.

Definition set_state (self : ReaderObj) (st : ParserState) : ReaderObj :=
  {| state := st; fields := fields self; field := field self |}.

Definition parse_save_field (self : ReaderObj) : ReaderObj :=
  {| state := state self;
     fields := (fields self ++ [field self])%list;
     field := EmptyString |}.

Definition parse_add_char (self : ReaderObj) (c : ascii) : result ReaderObj :=
  if (field_limit <=? Str.len (field self))%N
  then Raise (csv_Error field_larger_than_field_limit)
  else Ok {| state := state self;
             fields := fields self;
             field := field self ++ String c EmptyString |}.

Definition is_newline (c : pchar) : bool :=
  match c with
  | Chr a => Ascii.eqb a LF || Ascii.eqb a CR
  | EOL => false
  end.

(** The body of the [START_FIELD] case, which [START_RECORD] falls into. *)
Definition parse_start_field (self : ReaderObj) (c : pchar) : result ReaderObj :=
  match c with
  | EOL => Ok (set_state (parse_save_field self) START_RECORD)
  | Chr a =>
      if is_newline c then Ok (set_state (parse_save_field self) EAT_CRNL)
      else if Ascii.eqb a DQUOTE then Ok (set_state self IN_QUOTED_FIELD)
      else if Ascii.eqb a TAB then Ok (parse_save_field self)
      else self' <- parse_add_char self a ;; Ok (set_state self' IN_FIELD)
  end.

Definition parse_process_char (self : ReaderObj) (c : pchar) : result ReaderObj :=
  match state self with
  | START_RECORD =>
      match c with
      | EOL => Ok self                                 (* empty line: [] *)
      | Chr a =>
          if is_newline c then Ok (set_state self EAT_CRNL)
          else parse_start_field (set_state self START_FIELD) c
      end
  | START_FIELD => parse_start_field self c
  | IN_FIELD =>
      match c with
      | EOL => Ok (set_state (parse_save_field self) START_RECORD)
      | Chr a =>
          if is_newline c then Ok (set_state (parse_save_field self) EAT_CRNL)
          else if Ascii.eqb a TAB
               then Ok (set_state (parse_save_field self) START_FIELD)
          else parse_add_char self a
      end
  | IN_QUOTED_FIELD =>
      match c with
      | EOL => Ok self
      | Chr a =>
          if Ascii.eqb a DQUOTE then Ok (set_state self QUOTE_IN_QUOTED_FIELD)
          else parse_add_char self a
      end
  | QUOTE_IN_QUOTED_FIELD =>
      match c with
      | EOL => Ok (set_state (parse_save_field self) START_RECORD)
      | Chr a =>
          if Ascii.eqb a DQUOTE
          then self' <- parse_add_char self a ;; Ok (set_state self' IN_QUOTED_FIELD)
          else if Ascii.eqb a TAB
               then Ok (set_state (parse_save_field self) START_FIELD)
          else if is_newline c
               then Ok (set_state (parse_save_field self) EAT_CRNL)
          else self' <- parse_add_char self a ;; Ok (set_state self' IN_FIELD)
      end
  | EAT_CRNL =>
      match c with
      | EOL => Ok (set_state self START_RECORD)
      | Chr a =>
          if is_newline c then Ok self
          else Raise (csv_Error new_line_character_seen_in_unquoted_field)
      end
  end.

(** One turn of the loop of [Reader_iternext]: the characters of a line,
    then the end-of-line marker. *)
Fixpoint parse_process_line (self : ReaderObj) (line : string) : result ReaderObj :=
  match line with
  | EmptyString => parse_process_char self EOL
  | String c rest =>
      self' <- parse_process_char self (Chr c) ;;
      parse_process_line self' rest
  end.

(** The input ran out in the middle of a record: a field has characters, or
    a quoted field is still open.  The dialect is not strict, so what was
    read becomes the last record. *)
Definition pending (self : ReaderObj) : bool :=
  negb (Str.is_empty (field self)) || ParserState_eqb (state self) IN_QUOTED_FIELD.

(** Calling [next] on the reader until the lines run out.  A record is
    complete when a line leaves the parser in [START_RECORD]; the next call
    starts from [parse_reset].  The result is the records yielded, and either
    the parser as the last line left it or the exception that stopped it. *)
Fixpoint Reader_run (self : ReaderObj) (lines : list string)
  : list (list string) * result ReaderObj :=
  match lines with
  | [] => ([], Ok self)
  | line :: rest =>
      match parse_process_line self line with
      | Raise e => ([], Raise e)
      | Ok self' =>
          match state self' with
          | START_RECORD =>
              let (rows, r) := Reader_run parse_reset rest in
              (fields self' :: rows, r)
          | _ => Reader_run self' rest
          end
      end
  end.

(** A lazy sequence of rows: the rows yielded, and the exception raised
    after them, if any. *)
Definition row_stream : Type := (list (list string) * option exception)%type.

Definition csv_reader (lines : list string) : row_stream :=
  match Reader_run parse_reset lines with
  | (rows, Raise e) => (rows, Some e)
  | (rows, Ok self) =>
      if pending self
      then ((rows ++ [fields (parse_save_field self)])%list, None)
      else (rows, None)
  end.

(** ** [csv.writer(outfile)]

    The excel dialect as it is: delimiter [,], the double quote as quotechar,
    doublequote on, lineterminator "\r\n", quoting QUOTE_MINIMAL. *)

Definition lineterminator : string := String CR (String LF EmptyString).

(** The copy loop of [join_append_data]: the characters of the field with
    every quote doubled, and whether the field has to be quoted. *)
Fixpoint join_append_data (field : string) (quoted : bool) : string * bool :=
  match field with
  | EmptyString => (EmptyString, quoted)
  | String c r =>
      let special :=
        Ascii.eqb c COMMA || Ascii.eqb c DQUOTE || Str.mem c lineterminator in
      let (rest, q) := join_append_data r (quoted || special) in
      (if Ascii.eqb c DQUOTE then String DQUOTE (String c rest) else String c rest, q)
  end.

(** [join_append]: the delimiter unless this is the first field, then the
    field, between quotes when it needs them. *)
Definition join_append (rec : string) (num_fields : nat) (field : string) : string :=
  let (data, quoted) := join_append_data field false in
  rec ++ (if (0 <? num_fields)%nat then String COMMA EmptyString else EmptyString)
      ++ (if quoted then dq ++ data ++ dq else data).

(** The loop of [csv_writerow] over the fields of the row. *)
Fixpoint join_row (rec : string) (num_fields : nat) (row : list string) : string * nat :=
  match row with
  | [] => (rec, num_fields)
  | f :: fs => join_row (join_append rec num_fields f) (S num_fields) fs
  end.

(** [writer.writerow(row)]: the text handed to [outfile.write].  A record
    that came out empty although the row has a field is written as a pair
    of quotes. *)
Definition writerow (row : list string) : string :=
  let (rec, num_fields) := join_row EmptyString 0 row in
  (if (0 <? num_fields)%nat && Str.is_empty rec then dq ++ dq else rec) ++ lineterminator.

(** ** Writing text: [open(output_file, 'w', encoding='utf-8')]

    The code points of a [string] are below 256: one byte below 128, two
    bytes from 128 on. *)
Definition utf8_encode_char (c : ascii) : list byte :=
  let n := N_of_ascii c in
  if (n <? 128)%N then [byte_of_ascii c]
  else [byte_of_ascii (ascii_of_N (192 + n / 64));
        byte_of_ascii (ascii_of_N (128 + n mod 64))].

Fixpoint utf8_encode (s : string) : list byte :=
  match s with
  | EmptyString => []
  | String c r => (utf8_encode_char c ++ utf8_encode r)%list
  end.

(** ** [csv.DictReader(infile, delimiter='\t')] *)

(** A key of a row: a field name, or [None], the default [restkey]. *)
Definition pykey : Type := option string.

(** A value of a row: a field, [None] (the default [restval]), or the list
    of the fields beyond the last field name. *)
Inductive pyval : Type :=
| PyStr (v : string)
| PyNone
| PyList (l : list string).

Definition pydict : Type := list (pykey * pyval).

Definition pykey_eqb (a b : pykey) : bool :=
  match a, b with
  | Some x, Some y => String.eqb x y
  | None, None => true
  | _, _ => false
  end.

(** [d[k] = v]: a key already there keeps its place and takes the value, a
    new key goes last. *)
Fixpoint dict_set (d : pydict) (k : pykey) (v : pyval) : pydict :=
  match d with
  | [] => [(k, v)]
  | (k', v') :: r =>
      if pykey_eqb k' k then (k', v) :: r else (k', v') :: dict_set r k v
  end.

(** [d.get(k)] *)
Fixpoint dict_get (d : pydict) (k : pykey) : option pyval :=
  match d with
  | [] => None
  | (k', v') :: r => if pykey_eqb k' k then Some v' else dict_get r k
  end.

Definition dict_keys (d : pydict) : list pykey := map fst d.

(** [dict(zip(fieldnames, row))] *)
Definition dict_zip (fieldnames row : list string) : pydict :=
  fold_left (fun d kv => dict_set d (Some (fst kv)) (PyStr (snd kv)))
            (combine fieldnames row) [].

(** The dictionary [DictReader.__next__] builds from a row that is not
    empty: the extra fields of a long row go under [restkey], the missing
    fields of a short row are set to [restval]. *)
Definition DictReader_row (fieldnames row : list string) : pydict :=
  let d := dict_zip fieldnames row in
  let lf := List.length fieldnames in
  let lr := List.length row in
  if (lf <? lr)%nat then dict_set d None (PyList (skipn lf row))
  else if (lr <? lf)%nat then
    fold_left (fun d key => dict_set d (Some key) PyNone) (skipn lr fieldnames) d
  else d.

Definition is_blank_row (row : list string) : bool :=
  match row with
  | [] => true
  | _ :: _ => false
  end.

(** [[row for row in reader]] for a [DictReader]: the first row of the
    underlying reader gives the field names, rows that are [[]] are passed
    over, and an exception of the underlying reader ends the iteration. *)
Definition DictReader (rs : row_stream) : list pydict * option exception :=
  match rs with
  | ([], e) => ([], e)
  | (fieldnames :: rows, e) =>
      (map (DictReader_row fieldnames)
           (filter (fun row => negb (is_blank_row row)) rows), e)
  end.

(** ** [json.dump(data, outfile, indent=4)] *)

Definition hex_digit (n : N) : ascii :=
  ascii_of_N (if (n <? 10)%N then 48 + n else 87 + n).

(** ['\\u{0:04x}'.format(n)] *)
Definition u_escape (n : N) : string :=
  String "\" (String "u"
    (String (hex_digit ((n / 4096) mod 16))
    (String (hex_digit ((n / 256) mod 16))
    (String (hex_digit ((n / 16) mod 16))
    (String (hex_digit (n mod 16)) EmptyString))))).

(** The replacement [encode_basestring_ascii] makes for one character:
    backslash, quote and everything outside space..tilde are escaped. *)
Definition escape_ascii (c : ascii) : string :=
  let n := N_of_ascii c in
  if Ascii.eqb c "\" then "\\"
  else if Ascii.eqb c DQUOTE then String "\" dq
  else if (n =? 8)%N then "\b"
  else if (n =? 12)%N then "\f"
  else if (n =? 10)%N then "\n"
  else if (n =? 13)%N then "\r"
  else if (n =? 9)%N then "\t"
  else if (n <? 32)%N || (126 <? n)%N then u_escape n
  else String c EmptyString.

Fixpoint escape_string (s : string) : string :=
  match s with
  | EmptyString => EmptyString
  | String c r => escape_ascii c ++ escape_string r
  end.

Definition encode_basestring_ascii (s : string) : string :=
  dq ++ escape_string s ++ dq.

Definition newline_indent (level : nat) : string :=
  nl ++ Str.repeat " " (4 * level).

(** [_iterencode_list], its chunks joined, for items that [encode_item]
    writes at the indentation level it is given. *)
Definition _iterencode_list {A : Type} (encode_item : A -> nat -> string)
    (lst : list A) (level : nat) : string :=
  match lst with
  | [] => "[]"
  | _ :: _ =>
      "[" ++ newline_indent (S level)
          ++ String.concat ("," ++ newline_indent (S level))
                           (map (fun v => encode_item v (S level)) lst)
          ++ newline_indent level ++ "]"
  end.

Definition encode_key (k : pykey) : string :=
  match k with
  | Some name => encode_basestring_ascii name
  | None => encode_basestring_ascii "null"
  end.

Definition encode_value (v : pyval) (level : nat) : string :=
  match v with
  | PyStr x => encode_basestring_ascii x
  | PyNone => "null"
  | PyList l => _iterencode_list (fun x _ => encode_basestring_ascii x) l level
  end.

(** [_iterencode_dict], its chunks joined. *)
Definition _iterencode_dict (dct : pydict) (level : nat) : string :=
  match dct with
  | [] => "{}"
  | _ :: _ =>
      "{" ++ newline_indent (S level)
          ++ String.concat ("," ++ newline_indent (S level))
               (map (fun kv => encode_key (fst kv) ++ ": " ++ encode_value (snd kv) (S level))
                    dct)
          ++ newline_indent level ++ "}"
  end.

Definition json_dump (data : list pydict) : string :=
  _iterencode_list _iterencode_dict data 0.

(** ** [xml.etree.ElementTree]

    An element as the script uses it: a tag, a text and children.  The
    script sets no attribute and no tail.  A tag is a [pykey] and a text a
    [pyval] because the script passes the keys and values of a row as they
    are. *)

#[warnings="-register-all"] Inductive Element : Type :=
| mkElement (tag : pykey) (text : pyval) (children : list Element).

Definition tag (e : Element) : pykey := let (t, _, _) := e in t.
Definition text (e : Element) : pyval := let (_, x, _) := e in x.
Definition children (e : Element) : list Element := let (_, _, c) := e in c.

(** [s.replace(c, by)] for a one-character [c]. *)
Fixpoint replace (c : ascii) (by_ : string) (s : string) : string :=
  match s with
  | EmptyString => EmptyString
  | String a r => (if Ascii.eqb a c then by_ else String a EmptyString) ++ replace c by_ r
  end.

(** [_escape_cdata] of a [str]. *)
Definition _escape_cdata (x : string) : string :=
  replace ">" "&gt;" (replace "<" "&lt;" (replace "&" "&amp;" x)).

(** [_escape_attrib] of a [str]. *)
Definition _escape_attrib (x : string) : string :=
  replace TAB "&#09;" (replace LF "&#10;" (replace CR "&#13;"
    (replace DQUOTE "&quot;" (_escape_cdata x)))).

(** The well-known prefixes of [_namespace_map]. *)
Definition _namespace_map : list (string * string) :=
  [ ("http://www.w3.org/XML/1998/namespace", "xml");
    ("http://www.w3.org/1999/xhtml", "html");
    ("http://www.w3.org/1999/02/22-rdf-syntax-ns#", "rdf");
    ("http://schemas.xmlsoap.org/wsdl/", "wsdl");
    ("http://www.w3.org/2001/XMLSchema", "xs");
    ("http://www.w3.org/2001/XMLSchema-instance", "xsi");
    ("http://purl.org/dc/elements/1.1/", "dc") ].

Fixpoint assoc_get {V : Type} (m : list (string * V)) (k : string) : option V :=
  match m with
  | [] => None
  | (k', v) :: r => if String.eqb k' k then Some v else assoc_get r k
  end.

(** [x.rsplit("}", 1)] when [x] has a closing brace: what is before the
    last one, and what is after it. *)
Fixpoint rsplit_brace (x : string) : option (string * string) :=
  match x with
  | EmptyString => None
  | String a r =>
      match rsplit_brace r with
      | Some (uri, local) => Some (String a uri, local)
      | None => if Ascii.eqb a "}" then Some (EmptyString, r) else None
      end
  end.

(** The two tables [_namespaces] fills: tags to the names written for
    them, and namespace uris to prefixes, both in insertion order. *)
Record ns_tables : Type := mkTables {
  qnames : list (string * string);
  namespaces : list (string * string)
}.

Definition decimal (n : nat) : string :=
  DecimalString.NilZero.string_of_uint (Nat.to_uint n).

(** [add_qname]: a tag that starts with an opening brace is a name in a
    namespace and is written with a prefix; unpacking the [rsplit] of a tag
    without the closing brace raises [ValueError]. *)
Definition add_qname (tb : ns_tables) (qname : string) : result ns_tables :=
  if Str.starts_with "{" qname then
    match rsplit_brace (String.substring 1 (String.length qname - 1) qname) with
    | None => Raise ValueError
    | Some (uri, local) =>
        let (prefix, nss) :=
          match assoc_get (namespaces tb) uri with
          | Some prefix => (prefix, namespaces tb)
          | None =>
              let prefix :=
                match assoc_get _namespace_map uri with
                | Some known => known
                | None => "ns" ++ decimal (List.length (namespaces tb))
                end in
              (prefix,
               if String.eqb prefix "xml" then namespaces tb
               else (namespaces tb ++ [(uri, prefix)])%list)
          end in
        let written_as :=
          if Str.is_empty prefix then local else prefix ++ ":" ++ local in
        Ok {| qnames := (qnames tb ++ [(qname, written_as)])%list;
              namespaces := nss |}
    end
  else Ok {| qnames := (qnames tb ++ [(qname, qname)])%list;
             namespaces := namespaces tb |}.

(** The loop of [_namespaces] over [elem.iter()], the elements in document
    order.  The tag [None] is in the table from the start. *)
Fixpoint _namespaces (tb : ns_tables) (e : Element) : result ns_tables :=
  let (t, _, cs) := e in
  tb' <- match t with
         | None => Ok tb
         | Some name =>
             match assoc_get (qnames tb) name with
             | Some _ => Ok tb
             | None => add_qname tb name
             end
         end ;;
  (fix over (tb : ns_tables) (cs : list Element) : result ns_tables :=
     match cs with
     | [] => Ok tb
     | c :: r => tb' <- _namespaces tb c ;; over tb' r
     end) tb' cs.

(** [sorted(namespaces.items(), key=lambda x: x[1])] *)
Fixpoint insert_by_prefix (x : string * string) (l : list (string * string))
  : list (string * string) :=
  match l with
  | [] => [x]
  | y :: r => if String.ltb (snd x) (snd y) then x :: y :: r
              else y :: insert_by_prefix x r
  end.

Definition sorted_by_prefix (l : list (string * string)) : list (string * string) :=
  fold_right insert_by_prefix [] l.

Definition xmlns_attributes (nss : list (string * string)) : string :=
  String.concat EmptyString
    (map (fun vk =>
            " xmlns" ++ (if Str.is_empty (snd vk) then snd vk else ":" ++ snd vk)
                     ++ "=" ++ dq ++ _escape_attrib (fst vk) ++ dq)
         (sorted_by_prefix nss)).

(** What was written, and the exception that stopped the writing, if any. *)
Definition written : Type := (string * option exception)%type.

Definition write_then (a : string) (k : written) : written :=
  (a ++ fst k, snd k).

Definition truthy (v : pyval) : bool :=
  match v with
  | PyStr x => negb (Str.is_empty x)
  | PyNone => false
  | PyList l => negb (match l with [] => true | _ => false end)
  end.

(** [write(_escape_cdata(text))] for a text that is true.  Only a [str] can
    be escaped and written: a list either fails in [_escape_cdata] or comes
    back as it is and is refused by [write]; both raise [TypeError]. *)
Definition write_text (v : pyval) (k : written) : written :=
  match v with
  | PyStr x => write_then (_escape_cdata x) k
  | _ => (EmptyString, Some TypeError)
  end.

(** [qnames[tag]]: the table maps the tag [None] to [None] and holds every
    other tag of the tree, which [_namespaces] has gone through. *)
Definition lookup_qname (qn : list (string * string)) (t : pykey) : option string :=
  match t with
  | None => None
  | Some name => assoc_get qn name
  end.

(** [_serialize_xml], with [short_empty_elements] true.  [nss] is the
    namespace table for the root and empty below it; [k] is what is written
    after this element. *)
Fixpoint _serialize_xml (qn : list (string * string)) (nss : list (string * string))
    (e : Element) (k : written) : written :=
  let (t, x, cs) := e in
  let body (k' : written) : written :=
    (if truthy x then write_text x else fun k0 => k0)
      ((fix over (cs : list Element) (k0 : written) : written :=
          match cs with
          | [] => k0
          | c :: r => _serialize_xml qn [] c (over r k0)
          end) cs k') in
  match lookup_qname qn t with
  | None => body k
  | Some name =>
      write_then ("<" ++ name ++ xmlns_attributes nss)
        (if truthy x || negb (match cs with [] => true | _ => false end)
         then write_then ">" (body (write_then ("</" ++ name ++ ">") k))
         else write_then " />" k)
  end.

(** [ElementTree(root).write(output_file, encoding='utf-8')]: the text
    written to the file, which was opened (and so emptied) before anything
    else, and the exception raised, if any.  No XML declaration is written
    for utf-8. *)
Definition ElementTree_write (root : Element) : written :=
  match _namespaces {| qnames := []; namespaces := [] |} root with
  | Raise e => (EmptyString, Some e)
  | Ok tb => _serialize_xml (qnames tb) (namespaces tb) root (EmptyString, None)
  end.

(** The tree [convert_to_xml] builds from the rows of the [DictReader]. *)
Definition item_of_row (row : pydict) : Element :=
  mkElement (Some "item") PyNone
            (map (fun kv => mkElement (fst kv) (snd kv) []) row).

Definition root_of_rows (data : list pydict) : Element :=
  mkElement (Some "root") PyNone (map item_of_row data).

(** ** The world of the script *)

(** The files, by path, and what was printed, one entry for each [print].
    A file that can be opened for reading can be read to its end and
    [output_file] can always be opened for writing: the only failure of the
    file system in this model is a missing input. *)
Record World : Type := mkWorld {
  files : string -> option (list byte);
  stdout : list string
}.

Definition write_file (w : World) (path : string) (content : list byte) : World :=
  {| files := fun p => if String.eqb p path then Some content else files w p;
     stdout := stdout w |}.

Definition print (w : World) (line : string) : World :=
  {| files := files w; stdout := (stdout w ++ [line])%list |}.

(** What a file holds for a reader that has it open. *)
Definition read_open_file (w : World) (path : string) : list byte :=
  match files w path with
  | Some content => content
  | None => []
  end.

(** ** The three converters *)

(** The text [convert_to_csv] writes and the exception that ends its loop,
    if any, for an input with these bytes. *)
Definition csv_text (content : list byte) : string * option exception :=
  let (rows, e) := csv_reader (infile_lines content) in
  (String.concat EmptyString (map writerow rows), e).

(** Both files are opened before the first row is read: the output exists
    and is empty from then on, and the rows are read from the input as it is
    after that. *)
Definition convert_to_csv (input_file output_file : string) (w : World)
  : option exception * World :=
  match files w input_file with
  | None => (Some (FileNotFoundError input_file), w)
  | Some _ =>
      let w1 := write_file w output_file [] in
      let (out, e) := csv_text (read_open_file w1 input_file) in
      (e, write_file w1 output_file (utf8_encode out))
  end.

(** [data], the list the first [with] of [convert_to_json] builds. *)
Definition json_data (content : list byte) : result (list pydict) :=
  match DictReader (csv_reader (infile_lines content)) with
  | (data, None) => Ok data
  | (_, Some e) => Raise e
  end.

Definition convert_to_json (input_file output_file : string) (w : World)
  : option exception * World :=
  match files w input_file with
  | None => (Some (FileNotFoundError input_file), w)
  | Some content =>
      match json_data content with
      | Raise e => (Some e, w)
      | Ok data => (None, write_file w output_file (utf8_encode (json_dump data)))
      end
  end.

(** [root] as it is when the loop of [convert_to_xml] is over. *)
Definition xml_root (content : list byte) : result Element :=
  data <- json_data content ;; Ok (root_of_rows data).

(** The output is opened twice, by the script and then by [tree.write];
    the script writes nothing through its own handle. *)
Definition convert_to_xml (input_file output_file : string) (w : World)
  : option exception * World :=
  match files w input_file with
  | None => (Some (FileNotFoundError input_file), w)
  | Some content =>
      match xml_root content with
      | Raise e => (Some e, w)
      | Ok root =>
          let w1 := write_file w output_file [] in
          let (out, e) := ElementTree_write root in
          (e, write_file w1 output_file (utf8_encode out))
      end
  end.

(** ** [main] *)

(** How the process ends: [main] returns, [sys.exit] is called, or an
    exception is not caught. *)
Inductive termination : Type :=
| Returned
| SystemExit (status : nat)
| Uncaught (e : exception).

Definition exit_status (t : termination) : nat :=
  match t with
  | Returned => 0
  | SystemExit status => status
  | Uncaught _ => 1
  end.

Definition usage_message : string :=
  "Usage: python script.py <input_file> <-c|-j|-x>".

Definition invalid_flag_message : string :=
  "Invalid format flag. Use -c for CSV, -j for JSON, or -x for XML.".

(** The end of [main] after a converter was called. *)
Definition finish (output_file : string) (r : option exception * World)
  : termination * World :=
  match r with
  | (Some e, w) => (Uncaught e, w)
  | (None, w) =>
      (Returned, print w ("Conversion complete. Output saved to " ++ output_file))
  end.

Definition main (argv : list string) (w : World) : termination * World :=
  if negb (List.length argv =? 3)%nat then
    (SystemExit 1, print w usage_message)
  else
    let input_file := nth 1 argv EmptyString in
    let format_flag := nth 2 argv EmptyString in
    if String.eqb format_flag "-c" then
      finish "output.csv" (convert_to_csv input_file "output.csv" w)
    else if String.eqb format_flag "-j" then
      finish "output.json" (convert_to_json input_file "output.json" w)
    else if String.eqb format_flag "-x" then
      finish "output.xml" (convert_to_xml input_file "output.xml" w)
    else
      (SystemExit 1, print w invalid_flag_message).

(** * The vocabulary of the properties *)

(** ** Rows and dictionaries *)

(** The first loop of [DictReader.__next__], from any dictionary:
    [dict_zip fieldnames row] is [set_fields [] (combine fieldnames row)]. *)
Definition set_fields (d : pydict) (kvs : list (string * string)) : pydict :=
  fold_left (fun d kv => dict_set d (Some (fst kv)) (PyStr (snd kv))) kvs d.

(** Its second loop, over the field names a short row has no field for. *)
Definition set_restval (d : pydict) (ks : list string) : pydict :=
  fold_left (fun d key => dict_set d (Some key) PyNone) ks d.

(** The rows a [DictReader] does not pass over. *)
Definition not_blank (row : list string) : bool := negb (is_blank_row row).

(** ** Lines *)

(** The shape of a line of a text file read with universal newlines: no
    carriage return, and no line feed but at the very end. *)
Fixpoint line_shaped (l : string) : bool :=
  match l with
  | EmptyString => true
  | String c r =>
      if Ascii.eqb c LF then Str.is_empty r
      else negb (Ascii.eqb c CR) && line_shaped r
  end.

(** The characters of a list of lines. *)
Definition chars (lines : list string) : N :=
  fold_right (fun l n => (Str.len l + n)%N) 0%N lines.

(** Where the end of a line leaves the parser: at the start of a record, or
    inside a quoted field that goes on in the next line. *)
Definition at_line_end (self : ReaderObj) : Prop :=
  state self = START_RECORD \/ state self = IN_QUOTED_FIELD.

(** A line without its final newline. *)
Fixpoint chomp (line : string) : string :=
  match line with
  | EmptyString => EmptyString
  | String c r => if Ascii.eqb c LF then EmptyString else String c (chomp r)
  end.

(** A field the reader takes as it is: it does not open a quoted field and
    it fits the field size limit. *)
Definition field_ok (f : string) : bool :=
  negb (Str.starts_with DQUOTE f) && (Str.len f <=? field_limit)%N.

(** A line that is a record of its own: not blank, and made of such fields
    between tabs. *)
Definition plain_line (line : string) : bool :=
  line_shaped line && negb (Str.is_empty (chomp line))
  && forallb field_ok (Str.split TAB (chomp line)).





(** The last character is a carriage return: the one place where
    [universal_newlines] has to see what comes next. *)
Fixpoint ends_with_CR (x : string) : bool :=
  match x with
  | EmptyString => false
  | String c r =>
      match r with
      | EmptyString => Ascii.eqb c CR
      | String _ _ => ends_with_CR r
      end
  end.

(** The bytes are empty or end with a line feed. *)
Definition whole_lines (b : list byte) : Prop :=
  List.last b "010"%byte = "010"%byte.


(** ** Trees that can be written *)

(** A value [write] takes as text: anything but a list with elements, the
    one value of a row that is true and no [str]. *)
Definition writable_text (v : pyval) : bool :=
  match v with
  | PyList (_ :: _) => false
  | _ => true
  end.

(** A tag [add_qname] takes as it is: no name in a namespace. *)
Definition plain_tag (t : pykey) : bool :=
  match t with
  | Some name => negb (Str.starts_with "{" name)
  | None => true
  end.

(** A tree of such tags and texts. *)
Fixpoint writable (e : Element) : bool :=
  let (t, x, cs) := e in
  plain_tag t && writable_text x &&
  (fix all (cs : list Element) : bool :=
     match cs with
     | [] => true
     | c :: r => writable c && all r
     end) cs.

(** ** Two runs *)

(** What two runs leave in the file [p]: the same bytes, or what each one
    found there. *)
Definition same_effect_at (before1 after1 before2 after2 : World) (p : string) : Prop :=
  files after1 p = files after2 p \/
  (files after1 p = files before1 p /\ files after2 p = files before2 p).

(** Two calls of a converter: the same exception or none, nothing printed,
    the same effect on every file. *)
Definition same_effect (before1 before2 : World)
    (r1 r2 : option exception * World) : Prop :=
  fst r1 = fst r2 /\
  stdout (snd r1) = stdout before1 /\ stdout (snd r2) = stdout before2 /\
  forall p, same_effect_at before1 (snd r1) before2 (snd r2) p.

(** The same for a whole run: how it ends, what it prints, what it leaves
    in each file. *)
Definition same_run (w1 w2 : World) (r1 r2 : termination * World) : Prop :=
  fst r1 = fst r2 /\
  (exists printed,
      stdout (snd r1) = (stdout w1 ++ printed)%list /\
      stdout (snd r2) = (stdout w2 ++ printed)%list) /\
  forall p, same_effect_at w1 (snd r1) w2 (snd r2) p.

(** ** Inputs *)

(** A world with one file, [in.tsv], and nothing printed yet. *)
Definition world_with (content : list byte) : World :=
  {| files := fun p => if String.eqb p "in.tsv" then Some content else None;
     stdout := [] |}.

(** The input of the scenarios of the specification: a header and two data
    rows. *)
Definition scenario_input : list byte :=
  list_byte_of_string
    ("name" ++ tab ++ "age" ++ nl ++ "Alice" ++ tab ++ "30" ++ nl
            ++ "Bob" ++ tab ++ "25" ++ nl).

(** The header [a], [b] and one data row with the single field [1]. *)
Definition short_row_input : list byte :=
  list_byte_of_string ("a" ++ tab ++ "b" ++ nl ++ "1" ++ nl).

(** The header [a] and one data row with the fields [1] and [2]. *)
Definition long_row_input : list byte :=
  list_byte_of_string ("a" ++ nl ++ "1" ++ tab ++ "2" ++ nl).

(** One field of 131073 bytes: one more than the field size limit. *)
Definition oversized_input : list byte :=
  List.repeat "a"%byte (N.to_nat 131073).

(** ** What a converter touches *)

(** A converter prints nothing, leaves every file but its output as it is,
    and has made its output when it returns without an exception. *)
Definition keeps_to_output
    (conv : string -> string -> World -> option exception * World) : Prop :=
  forall input_file output_file w,
    stdout (snd (conv input_file output_file w)) = stdout w /\
    (fst (conv input_file output_file w) = None ->
     files (snd (conv input_file output_file w)) output_file <> None) /\
    (forall p, p <> output_file ->
               files (snd (conv input_file output_file w)) p = files w p).

(** The line [main] prints last when a conversion is over. *)
Definition complete_message (output_file : string) : string :=
  "Conversion complete. Output saved to " ++ output_file.

(** ** Inputs with something unusual *)

(** A header and nothing else. *)
Definition header_only_input : list byte :=
  list_byte_of_string ("name" ++ tab ++ "age" ++ nl).

(** The header names its two columns alike. *)
Definition repeated_name_input : list byte :=
  list_byte_of_string ("a" ++ tab ++ "a" ++ nl ++ "1" ++ tab ++ "2" ++ nl).


(** A header, then a row whose first field opens a quote that is never
    closed, and one more line. *)
Definition open_quote_input : list byte :=
  list_byte_of_string
    ("a" ++ tab ++ "b" ++ nl ++ dq ++ "x" ++ tab ++ "y" ++ nl ++ "z" ++ nl).

(** A header name that opens a namespace and does not close it. *)
Definition open_brace_input : list byte :=
  list_byte_of_string ("{a" ++ tab ++ "b" ++ nl ++ "1" ++ tab ++ "2" ++ nl).

(** A header, then one field of 131073 bytes. *)
Definition oversized_row_input : list byte :=
  (list_byte_of_string ("a" ++ tab ++ "b" ++ nl) ++ oversized_input)%list.



(** ** The records of the csv output *)

(** The characters that make the writer put a field between quotes. *)
Definition needs_quotes (f : string) : bool :=
  Str.mem COMMA f || Str.mem DQUOTE f || Str.mem CR f || Str.mem LF f.

(** A field as it stands in a record: as it is, or between quotes with
    every quote of its own doubled. *)
Definition quote_field (f : string) : string :=
  if needs_quotes f then dq ++ replace DQUOTE (dq ++ dq) f ++ dq else f.

(** A record: the fields with commas between them; a pair of quotes for a
    row of one empty field, which would be an empty line otherwise. *)
Definition csv_record (row : list string) : string :=
  match row with
  | [EmptyString] => dq ++ dq
  | _ => String.concat "," (map quote_field row)
  end.

(** A line without a comma and without a quote. *)
Definition clean_line (l : string) : bool :=
  negb (Str.mem COMMA l) && negb (Str.mem DQUOTE l).

(** The dictionary of a row of a table: a header without repeated names and
    as many fields as names. *)
Definition zip_row (fieldnames row : list string) : pydict :=
  map (fun kv => (Some (fst kv), PyStr (snd kv))) (combine fieldnames row).

(** ** Other line ends *)

(** The same file with the line ends of DOS: a carriage return before
    every line feed. *)
Definition to_crlf (content : list byte) : list byte :=
  flat_map (fun b => if Byte.eqb b "010" then ["013"; "010"]%byte else [b]) content.

(** The same file with the line ends of the old Mac OS: a carriage return
    for every line feed. *)
Definition to_cr (content : list byte) : list byte :=
  map (fun b => if Byte.eqb b "010" then "013"%byte else b) content.

(** ** The characters of the JSON output *)

(** [all(p(c) for c in s)] *)
Fixpoint all_chars (p : ascii -> bool) (s : string) : bool :=
  match s with
  | EmptyString => true
  | String c r => p c && all_chars p r
  end.

(** A printable ASCII character, from the space to the tilde, or a line
    feed. *)
Definition json_char (c : ascii) : bool :=
  Ascii.eqb c LF || ((32 <=? N_of_ascii c)%N && (N_of_ascii c <=? 126)%N).

(** ** Quoted fields *)


(** ** The text of the XML output *)

(** The tags of a tree, in document order. *)
Fixpoint tags (e : Element) : list pykey :=
  let (t, _, cs) := e in t :: flat_map tags cs.

(** Its texts. *)
Fixpoint texts (e : Element) : list pyval :=
  let (_, x, cs) := e in x :: flat_map texts cs.

(** A tree written with every tag as it is: the start tag, the text
    escaped, the children, the end tag; an element without text and
    children in the short form. *)
Fixpoint render (e : Element) : string :=
  let (t, x, cs) := e in
  let inner :=
    match x with
    | PyStr v => _escape_cdata v
    | _ => EmptyString
    end ++ String.concat EmptyString (map render cs) in
  match t with
  | None => inner
  | Some name =>
      if truthy x || negb (match cs with [] => true | _ => false end)
      then "<" ++ name ++ ">" ++ inner ++ "</" ++ name ++ ">"
      else "<" ++ name ++ " />"
  end.

(** A table of names in which every name stands for itself and no
    namespace is declared: what [_namespaces] builds from plain tags. *)
Definition plain_tables (tb : ns_tables) : Prop :=
  namespaces tb = [] /\
  forall name q, assoc_get (qnames tb) name = Some q -> q = name.

(** The element of a column: the field between the tags of the column's
    name, or the short form for an empty field. *)
Definition xml_field (name value : string) : string :=
  if Str.is_empty value then "<" ++ name ++ " />"
  else "<" ++ name ++ ">" ++ _escape_cdata value ++ "</" ++ name ++ ">".

(** The item of a row that is not longer than the header: its fields, then
    an empty element for each column it has no field for. *)
Definition xml_item (fieldnames row : list string) : string :=
  "<item>"
    ++ String.concat EmptyString
         (map (fun kv => xml_field (fst kv) (snd kv)) (combine fieldnames row))
    ++ String.concat EmptyString
         (map (fun name => "<" ++ name ++ " />") (skipn (List.length row) fieldnames))
    ++ "</item>".

Definition xml_document (fieldnames : list string) (rows : list (list string)) : string :=
  match rows with
  | [] => "<root />"
  | _ :: _ =>
      "<root>" ++ String.concat EmptyString (map (xml_item fieldnames) rows) ++ "</root>"
  end.

(** ** Names in a namespace *)

(** A tag that opens a namespace and never closes it. *)
Definition open_brace_name (name : string) : bool :=
  Str.starts_with "{" name && negb (Str.mem "}" name).

(** The tag of an element is such a name. *)
Definition open_brace_tag (t : pykey) : bool :=
  match t with
  | Some name => open_brace_name name
  | None => false
  end.

(** No name of the table of [_namespaces] is one. *)
Definition no_open_brace (tb : ns_tables) : Prop :=
  forall name, assoc_get (qnames tb) name <> None -> open_brace_name name = false.

(** ** The text of the JSON output *)





(** ** The items of the XML output *)




(** ** Reading an escape back *)



(** Every branch of the [if]s of the goal. *)
Ltac split_ifs :=
  repeat match goal with
         | |- context [if ?b then _ else _] => destruct b eqn:?
         end.

(** * Properties *)

(** ** Strings *)

Module StrFacts.

Lemma append_nil_r (x : string) : x ++ EmptyString = x.
Proof. induction x as [|c r IH]; simpl; [reflexivity | now rewrite IH]. Qed.

Lemma append_assoc (x y z : string) : (x ++ y) ++ z = x ++ (y ++ z).
Proof. induction x as [|c r IH]; simpl; [reflexivity | now rewrite IH]. Qed.

Lemma length_append (x y : string) :
  String.length (x ++ y) = String.length x + String.length y.
Proof. induction x as [|c r IH]; simpl; [reflexivity | now rewrite IH]. Qed.


Lemma len_snoc (x : string) (c : ascii) :
  Str.len (x ++ String c EmptyString) = (Str.len x + 1)%N.
Proof. unfold Str.len. rewrite length_append. simpl. lia. Qed.

Lemma concat_nil_cons (x : string) (l : list string) :
  String.concat EmptyString (x :: l) = x ++ String.concat EmptyString l.
Proof. destruct l; simpl; [now rewrite append_nil_r | reflexivity]. Qed.

Lemma concat_nil_app (l1 l2 : list string) :
  String.concat EmptyString (l1 ++ l2)%list =
  String.concat EmptyString l1 ++ String.concat EmptyString l2.
Proof.
  induction l1 as [|x r IH]; [reflexivity |].
  change ((x :: r) ++ l2)%list with (x :: (r ++ l2)%list).
  now rewrite !concat_nil_cons, IH, append_assoc.
Qed.


End StrFacts.

(** ** Dictionaries *)

Lemma pykey_eqb_spec (a b : pykey) : reflect (a = b) (pykey_eqb a b).
Proof.
  destruct a as [x|], b as [y|]; simpl; try (constructor; congruence).
  destruct (String.eqb_spec x y); constructor; congruence.
Qed.

Lemma dict_get_set (d : pydict) (k k' : pykey) (v : pyval) :
  dict_get (dict_set d k v) k' =
  if pykey_eqb k k' then Some v else dict_get d k'.
Proof.
  induction d as [|[k0 v0] r IH]; simpl.
  - reflexivity.
  - destruct (pykey_eqb_spec k0 k) as [-> | Hne]; simpl.
    + destruct (pykey_eqb k k'); reflexivity.
    + rewrite IH. destruct (pykey_eqb_spec k0 k') as [-> | Hne'].
      * destruct (pykey_eqb_spec k k'); [congruence | reflexivity].
      * reflexivity.
Qed.

Lemma dict_keys_set (d : pydict) (k : pykey) (v : pyval) (x : pykey) :
  In x (dict_keys (dict_set d k v)) <-> x = k \/ In x (dict_keys d).
Proof.
  unfold dict_keys. induction d as [|[k0 v0] r IH]; simpl.
  - intuition.
  - destruct (pykey_eqb_spec k0 k) as [-> | Hne]; simpl.
    + intuition.
    + rewrite IH. intuition.
Qed.

Lemma dict_set_fresh (d : pydict) (k : pykey) (v : pyval) :
  ~ In k (dict_keys d) -> dict_set d k v = (d ++ [(k, v)])%list.
Proof.
  unfold dict_keys. induction d as [|[k0 v0] r IH]; simpl; intros Hk.
  - reflexivity.
  - destruct (pykey_eqb_spec k0 k) as [-> | Hne]; [tauto |].
    rewrite IH; tauto.
Qed.

Lemma dict_keys_set_fields (kvs : list (string * string)) (d : pydict) (x : pykey) :
  In x (dict_keys (set_fields d kvs)) <->
  In x (dict_keys d) \/ exists k, x = Some k /\ In k (map fst kvs).
Proof.
  revert d. induction kvs as [|[k v] r IH]; intros d; simpl.
  - split; [auto | intros [H | [k [_ []]]]; exact H].
  - unfold set_fields in *. simpl. rewrite IH, dict_keys_set. simpl. split.
    + intros [[-> | H] | [k' [-> H]]]; eauto.
    + intros [H | [k' [-> [<- | H]]]]; eauto.
Qed.

Lemma dict_keys_set_restval (ks : list string) (d : pydict) (x : pykey) :
  In x (dict_keys (set_restval d ks)) <->
  In x (dict_keys d) \/ exists k, x = Some k /\ In k ks.
Proof.
  revert d. induction ks as [|k r IH]; intros d; simpl.
  - split; [auto | intros [H | [k [_ []]]]; exact H].
  - unfold set_restval in *. simpl. rewrite IH, dict_keys_set. split.
    + intros [[-> | H] | [k' [-> H]]]; eauto.
    + intros [H | [k' [-> [<- | H]]]]; eauto.
Qed.


Lemma set_fields_nodup (kvs : list (string * string)) (d : pydict) :
  NoDup (dict_keys d ++ map (fun kv => Some (fst kv)) kvs)%list ->
  set_fields d kvs =
  (d ++ map (fun kv => (Some (fst kv), PyStr (snd kv))) kvs)%list.
Proof.
  revert d. induction kvs as [|[k v] r IH]; intros d Hnd; simpl.
  - now rewrite app_nil_r.
  - unfold set_fields in *. simpl.
    assert (Hk : ~ In (Some k) (dict_keys d)).
    { apply NoDup_remove_2 in Hnd. intros Hin. apply Hnd.
      apply in_or_app. now left. }
    rewrite (dict_set_fresh d (Some k) (PyStr v) Hk).
    rewrite IH.
    + now rewrite <- app_assoc.
    + unfold dict_keys in *. rewrite map_app. simpl.
      rewrite <- app_assoc. simpl.
      simpl in Hnd. exact Hnd.
Qed.

Lemma map_fst_combine_firstn {A B : Type} (l : list A) (l' : list B) :
  map fst (combine l l') = firstn (List.length l') l.
Proof.
  revert l'. induction l as [|a r IH]; intros l'.
  - simpl. now rewrite firstn_nil.
  - destruct l' as [|b r']; simpl; [reflexivity | now rewrite IH].
Qed.

Lemma NoDup_map_Some {A : Type} (l : list A) : NoDup l -> NoDup (map Some l).
Proof.
  induction 1 as [|a r Hnin _ IH]; simpl; constructor; [| exact IH].
  rewrite in_map_iff. intros [b [E Hb]]. inversion E; subst. tauto.
Qed.

Lemma DictReader_row_eq (fieldnames row : list string) :
  DictReader_row fieldnames row =
  let d := set_fields [] (combine fieldnames row) in
  if (List.length fieldnames <? List.length row)%nat
  then dict_set d None (PyList (skipn (List.length fieldnames) row))
  else if (List.length row <? List.length fieldnames)%nat
       then set_restval d (skipn (List.length row) fieldnames)
       else d.
Proof. reflexivity. Qed.

Lemma zipped_keys (fieldnames row : list string) (x : pykey) :
  In x (dict_keys (set_fields [] (combine fieldnames row))) <->
  exists k, x = Some k /\ In k (firstn (List.length row) fieldnames).
Proof.
  rewrite dict_keys_set_fields, map_fst_combine_firstn. simpl. tauto.
Qed.

(** The keys of a row's dictionary are the field names, and [None] as well
    when the row is longer than the header. *)
Lemma DictReader_row_keys (fieldnames row : list string) (x : pykey) :
  In x (dict_keys (DictReader_row fieldnames row)) <->
  (exists k, x = Some k /\ In k fieldnames) \/
  (x = None /\ List.length fieldnames < List.length row).
Proof.
  rewrite DictReader_row_eq. cbv zeta.
  destruct (Nat.ltb_spec (List.length fieldnames) (List.length row)) as [Hlong | Hle].
  - rewrite dict_keys_set, zipped_keys, firstn_all2 by lia. intuition.
  - destruct (Nat.ltb_spec (List.length row) (List.length fieldnames)) as [Hshort | Hge].
    + rewrite dict_keys_set_restval, zipped_keys.
      assert (Hsplit : forall k, In k fieldnames <->
                In k (firstn (List.length row) fieldnames) \/
                In k (skipn (List.length row) fieldnames)).
      { intros k. rewrite <- in_app_iff. now rewrite firstn_skipn. }
      split.
      * intros [[k [-> H]] | [k [-> H]]]; left; exists k;
          (split; [reflexivity | apply Hsplit; auto]).
      * intros [[k [-> H]] | [_ H]]; [| lia].
        apply Hsplit in H. destruct H; eauto.
    + rewrite zipped_keys, firstn_all2 by lia.
      split; [auto | intros [H | [_ H]]; [exact H | lia]].
Qed.



(** A row as long as a header without repeated names: one entry for each
    column, in the order of the columns. *)
Lemma DictReader_row_exact (fieldnames row : list string) :
  List.length row = List.length fieldnames ->
  NoDup fieldnames ->
  DictReader_row fieldnames row =
  map (fun kv => (Some (fst kv), PyStr (snd kv))) (combine fieldnames row).
Proof.
  intros Hlen Hnd. rewrite DictReader_row_eq. cbv zeta.
  destruct (Nat.ltb_spec (List.length fieldnames) (List.length row)); [lia |].
  destruct (Nat.ltb_spec (List.length row) (List.length fieldnames)); [lia |].
  rewrite set_fields_nodup; [reflexivity |].
  simpl. rewrite <- (map_map fst Some), map_fst_combine_firstn.
  rewrite firstn_all2 by lia.
  now apply NoDup_map_Some.
Qed.

(** ** What the converters read *)

Lemma json_data_rows (content : list byte) (fieldnames : list string)
    (rows : list (list string)) :
  csv_reader (infile_lines content) = (fieldnames :: rows, None) ->
  json_data content = Ok (map (DictReader_row fieldnames) (filter not_blank rows)).
Proof. intros H. unfold json_data. rewrite H. reflexivity. Qed.

Lemma xml_root_rows (content : list byte) (fieldnames : list string)
    (rows : list (list string)) :
  csv_reader (infile_lines content) = (fieldnames :: rows, None) ->
  xml_root content =
  Ok (root_of_rows (map (DictReader_row fieldnames) (filter not_blank rows))).
Proof. intros H. unfold xml_root. now rewrite (json_data_rows _ _ _ H). Qed.

Lemma in_data (fieldnames : list string) (rows : list (list string)) (row : list string) :
  In row rows -> row <> [] ->
  In (DictReader_row fieldnames row)
     (map (DictReader_row fieldnames) (filter not_blank rows)).
Proof.
  intros Hin Hne. apply in_map, filter_In. split; [exact Hin |].
  destruct row; [congruence | reflexivity].
Qed.


(** ** The lines of the input *)

(** Induction on a string two characters at a time, as
    [universal_newlines] reads it. *)
Lemma string_ind2 (P : string -> Prop) :
  P EmptyString ->
  (forall c, P (String c EmptyString)) ->
  (forall c c' r, P r -> P (String c' r) -> P (String c (String c' r))) ->
  forall x, P x.
Proof.
  intros H0 H1 H2 x.
  assert (G : P x /\ forall c, P (String c x)).
  { induction x as [|a r [IHr IHc]]; split; auto. }
  exact (proj1 G).
Qed.

Lemma decode_latin1_length (bs : list byte) :
  String.length (decode_latin1 bs) = List.length bs.
Proof. induction bs as [|b r IH]; simpl; [reflexivity | now rewrite IH]. Qed.

Lemma decode_latin1_get (bs : list byte) (i : nat) (b : byte) :
  nth_error bs i = Some b ->
  String.get i (decode_latin1 bs) = Some (ascii_of_byte b).
Proof.
  revert i. induction bs as [|a r IH]; intros [|i]; simpl; try discriminate.
  - now intros [= ->].
  - apply IH.
Qed.

(** The character of a byte has the byte's value as code point. *)
Lemma code_of_decoded_byte (b : byte) : N_of_ascii (ascii_of_byte b) = Byte.to_N b.
Proof. destruct b; reflexivity. Qed.

Lemma decode_latin1_app (a b : list byte) :
  decode_latin1 (a ++ b)%list = decode_latin1 a ++ decode_latin1 b.
Proof. induction a as [|x r IH]; simpl; [reflexivity | now rewrite IH]. Qed.

Lemma universal_newlines_no_CR (x : string) :
  Str.mem CR (universal_newlines x) = false.
Proof.
  induction x as [| c | c c' r IHr IHc] using string_ind2.
  - reflexivity.
  - simpl. destruct (Ascii.eqb_spec c CR) as [-> | Hc]; simpl; [reflexivity |].
    apply Ascii.eqb_neq in Hc. now rewrite Hc.
  - change (universal_newlines (String c (String c' r)))
      with (if Ascii.eqb c CR
            then if Ascii.eqb c' LF then String LF (universal_newlines r)
                 else String LF (universal_newlines (String c' r))
            else String c (universal_newlines (String c' r))).
    destruct (Ascii.eqb_spec c CR) as [-> | Hc].
    + destruct (Ascii.eqb c' LF); simpl Str.mem; [exact IHr | exact IHc].
    + apply Ascii.eqb_neq in Hc. simpl Str.mem. rewrite Hc. exact IHc.
Qed.

Lemma universal_newlines_length (x : string) :
  String.length (universal_newlines x) <= String.length x.
Proof.
  induction x as [| c | c c' r IHr IHc] using string_ind2.
  - reflexivity.
  - simpl. destruct (Ascii.eqb c CR); simpl; lia.
  - change (universal_newlines (String c (String c' r)))
      with (if Ascii.eqb c CR
            then if Ascii.eqb c' LF then String LF (universal_newlines r)
                 else String LF (universal_newlines (String c' r))
            else String c (universal_newlines (String c' r))).
    destruct (Ascii.eqb c CR); [destruct (Ascii.eqb c' LF) |];
      simpl String.length in *; lia.
Qed.

Lemma splitlines_shaped (x : string) :
  Str.mem CR x = false ->
  Forall (fun l => line_shaped l = true) (splitlines x).
Proof.
  induction x as [|c r IH]; simpl; [constructor |].
  intros H. apply orb_false_iff in H. destruct H as [Hc Hr].
  specialize (IH Hr).
  destruct (Ascii.eqb c LF) eqn:Hlf.
  - constructor; [simpl; now rewrite Hlf | exact IH].
  - destruct (splitlines r) as [|l ls].
    + constructor; [simpl; now rewrite Hlf, Hc | constructor].
    + inversion IH; subst. constructor; [| assumption].
      simpl. now rewrite Hlf, Hc.
Qed.

Lemma infile_lines_shaped (content : list byte) :
  Forall (fun l => line_shaped l = true) (infile_lines content).
Proof. apply splitlines_shaped, universal_newlines_no_CR. Qed.

Lemma len_String (c : ascii) (r : string) :
  Str.len (String c r) = (Str.len r + 1)%N.
Proof. unfold Str.len. cbn [String.length]. lia. Qed.

Lemma len_Empty : Str.len EmptyString = 0%N.
Proof. reflexivity. Qed.

Lemma chars_cons (l : string) (ls : list string) :
  chars (l :: ls) = (Str.len l + chars ls)%N.
Proof. reflexivity. Qed.

Lemma chars_splitlines (x : string) : chars (splitlines x) = Str.len x.
Proof.
  induction x as [|c r IH]; [reflexivity |].
  cbn [splitlines]. rewrite len_String.
  destruct (Ascii.eqb c LF).
  - rewrite chars_cons, IH, len_String, len_Empty. lia.
  - destruct (splitlines r) as [|l ls].
    + rewrite chars_cons, len_String, len_Empty. rewrite <- IH.
      change (chars []) with 0%N. lia.
    + rewrite chars_cons in *. rewrite len_String. lia.
Qed.

Lemma chars_infile_lines (content : list byte) :
  (chars (infile_lines content) <= N.of_nat (List.length content))%N.
Proof.
  unfold infile_lines. rewrite chars_splitlines. unfold Str.len.
  pose proof (universal_newlines_length (decode_latin1 content)) as H.
  rewrite decode_latin1_length in H. lia.
Qed.

(** ** The parser, one character at a time *)

Lemma parse_add_char_spec (self : ReaderObj) (a : ascii) :
  ((field_limit <= Str.len (field self))%N /\
   parse_add_char self a = Raise (csv_Error field_larger_than_field_limit)) \/
  ((Str.len (field self) < field_limit)%N /\
   parse_add_char self a =
   Ok {| state := state self; fields := fields self;
         field := field self ++ String a EmptyString |}).
Proof.
  unfold parse_add_char.
  destruct (N.leb_spec field_limit (Str.len (field self))); [left | right]; auto.
Qed.

(** A character met in any state but [EAT_CRNL]: the only failure is a field
    that is full, and a field grows by one character at most. *)
Lemma char_step (self : ReaderObj) (a : ascii) :
  state self <> EAT_CRNL ->
  match parse_process_char self (Chr a) with
  | Raise e =>
      e = csv_Error field_larger_than_field_limit /\
      (field_limit <= Str.len (field self))%N
  | Ok self' =>
      (Str.len (field self') <= Str.len (field self) + 1)%N /\
      (is_newline (Chr a) = false -> state self' <> EAT_CRNL)
  end.
Proof.
  destruct self as [st fs fd]. cbn [state field]. intros Hst.
  assert (Hadd : forall st',
            st' <> EAT_CRNL ->
            match parse_add_char (mkReader st' fs fd) a with
            | Raise e => e = csv_Error field_larger_than_field_limit /\
                         (field_limit <= Str.len fd)%N
            | Ok self' => (Str.len (field self') <= Str.len fd + 1)%N /\
                          state self' = st'
            end).
  { intros st' _.
    destruct (parse_add_char_spec (mkReader st' fs fd) a) as [[Hl ->] | [Hl ->]];
      cbn [state field fields] in *; [auto |].
    rewrite StrFacts.len_snoc. split; [lia | reflexivity]. }
  unfold parse_process_char, parse_start_field, set_state, parse_save_field.
  cbn [state field fields].
  destruct st; try congruence;
    unfold is_newline; cbn [bind];
    split_ifs; cbn [state field fields bind];
    try (rewrite len_Empty; split; [lia | congruence]);
    try (split; [lia | congruence]).
  all: match goal with
       | |- context [parse_add_char (mkReader ?s ?x ?y) ?z] =>
           let H := fresh in
           pose proof (Hadd s ltac:(congruence)) as H;
           destruct (parse_add_char (mkReader s x y) z) as [[st' fs' fd'] | e];
           cbn [state field fields bind] in *;
           destruct H as [H1 H2]; try subst st';
           (split; [auto | try congruence])
       end.
Qed.

(** The end of a line, in any state: it cannot fail, it leaves the parser
    at the start of a record or inside a quoted field, and it adds nothing to
    a field. *)
Lemma eol_step (self : ReaderObj) :
  exists self',
    parse_process_char self EOL = Ok self' /\
    (state self' = START_RECORD \/ state self' = IN_QUOTED_FIELD) /\
    (Str.len (field self') <= Str.len (field self))%N.
Proof.
  destruct self as [st fs fd].
  destruct st; cbn; eexists; (split; [reflexivity |]); cbn;
    (split; [auto | rewrite ?len_Empty; lia]).
Qed.

(** A whole line of the shape the file iterator gives. *)
Lemma line_step (line : string) (self : ReaderObj) :
  line_shaped line = true ->
  state self <> EAT_CRNL ->
  match parse_process_line self line with
  | Raise e =>
      e = csv_Error field_larger_than_field_limit /\
      (field_limit < Str.len (field self) + Str.len line)%N
  | Ok self' =>
      at_line_end self' /\
      (Str.len (field self') <= Str.len (field self) + Str.len line)%N
  end.
Proof.
  revert self. induction line as [|c r IH]; intros self Hshape Hst.
  - cbn [parse_process_line].
    destruct (eol_step self) as [self' [-> [Hend Hlen]]].
    split; [exact Hend | rewrite len_Empty; lia].
  - cbn [parse_process_line line_shaped] in *. rewrite len_String.
    pose proof (char_step self c Hst) as Hc.
    destruct (parse_process_char self (Chr c)) as [self1 | e]; cbn [bind].
    + destruct Hc as [Hlen1 Hst1].
      destruct (Ascii.eqb c LF) eqn:Hlf.
      * destruct r; [| discriminate]. cbn [parse_process_line].
        destruct (eol_step self1) as [self' [-> [Hend Hlen]]].
        split; [exact Hend | rewrite len_Empty; lia].
      * apply andb_true_iff in Hshape. destruct Hshape as [Hcr Hr].
        apply negb_true_iff in Hcr.
        assert (Hnl : is_newline (Chr c) = false)
          by (unfold is_newline; now rewrite Hlf, Hcr).
        specialize (IH self1 Hr (Hst1 Hnl)).
        destruct (parse_process_line self1 r) as [self' | e].
        -- destruct IH as [Hend Hlen]. split; [exact Hend | lia].
        -- destruct IH as [-> Hlen]. split; [reflexivity | lia].
    + destruct Hc as [-> Hlen]. split; [reflexivity | lia].
Qed.

(** All the lines: the reader can only stop on a field that is too large,
    which takes more characters than the limit. *)
Lemma Reader_run_step (lines : list string) (self : ReaderObj) :
  Forall (fun l => line_shaped l = true) lines ->
  state self <> EAT_CRNL ->
  match snd (Reader_run self lines) with
  | Raise e =>
      e = csv_Error field_larger_than_field_limit /\
      (field_limit < Str.len (field self) + chars lines)%N
  | Ok self' => state self' <> EAT_CRNL
  end.
Proof.
  revert self. induction lines as [|l ls IH]; intros self Hall Hst.
  - exact Hst.
  - inversion Hall as [|? ? Hl Hls]; subst. cbn [Reader_run]. rewrite chars_cons.
    pose proof (line_step l self Hl Hst) as Hline.
    destruct (parse_process_line self l) as [self1 | e].
    + destruct Hline as [Hend Hlen].
      destruct (state self1) eqn:Hs1;
        try (destruct Hend as [E | E]; rewrite Hs1 in E; discriminate).
      * specialize (IH parse_reset Hls ltac:(discriminate)).
        destruct (Reader_run parse_reset ls) as [rows r]. cbn [snd] in *.
        destruct r as [self' | e]; [exact IH |].
        destruct IH as [-> Hlim]. split; [reflexivity |].
        change (Str.len (field parse_reset)) with 0%N in Hlim. lia.
      * specialize (IH self1 Hls ltac:(rewrite Hs1; discriminate)).
        destruct (snd (Reader_run self1 ls)) as [self' | e]; [exact IH |].
        destruct IH as [-> Hlim]. split; [reflexivity | lia].
    + cbn [snd]. destruct Hline as [-> Hlim]. split; [reflexivity | lia].
Qed.

(** The only exception that leaves the reader of the script. *)
Lemma csv_reader_error (content : list byte) (rows : list (list string)) (e : exception) :
  csv_reader (infile_lines content) = (rows, Some e) ->
  e = csv_Error field_larger_than_field_limit /\
  (field_limit < N.of_nat (List.length content))%N.
Proof.
  unfold csv_reader. intros H.
  pose proof (Reader_run_step (infile_lines content) parse_reset
                (infile_lines_shaped content) ltac:(discriminate)) as Hrun.
  pose proof (chars_infile_lines content) as Hchars.
  destruct (Reader_run parse_reset (infile_lines content)) as [rs r].
  cbn [snd] in Hrun. destruct r as [self' | e'].
  - destruct (pending self'); discriminate.
  - destruct Hrun as [-> Hlim]. inversion H; subst.
    change (Str.len (field parse_reset)) with 0%N in Hlim. split; [reflexivity | lia].
Qed.

(** ** A field beyond the limit *)

Lemma overlong_field (m : nat) (self : ReaderObj) :
  state self = IN_FIELD ->
  (Str.len (field self) <= field_limit)%N ->
  (field_limit < Str.len (field self) + N.of_nat m)%N ->
  parse_process_line self (Str.repeat "a" m) =
  Raise (csv_Error field_larger_than_field_limit).
Proof.
  revert self. induction m as [|k IH]; intros [st fs fd]; cbn [state field];
    intros -> Hle Hlim; [lia |].
  cbn [Str.repeat parse_process_line].
  change (parse_process_char (mkReader IN_FIELD fs fd) (Chr "a"))
    with (parse_add_char (mkReader IN_FIELD fs fd) "a").
  destruct (parse_add_char_spec (mkReader IN_FIELD fs fd) "a") as [[_ ->] | [Hlt ->]];
    cbn [bind state field fields] in *; [reflexivity |].
  apply IH; cbn [state field]; [reflexivity | |]; rewrite StrFacts.len_snoc; lia.
Qed.

Lemma overlong_line (n : nat) :
  (field_limit < N.of_nat n)%N ->
  parse_process_line parse_reset (Str.repeat "a" n) =
  Raise (csv_Error field_larger_than_field_limit).
Proof.
  intros Hlim. destruct n as [|m]; [cbn in Hlim; lia |].
  cbn [Str.repeat parse_process_line].
  change (parse_process_char parse_reset (Chr "a"))
    with (self' <- parse_add_char (mkReader START_FIELD [] EmptyString) "a" ;;
          Ok (set_state self' IN_FIELD)).
  destruct (parse_add_char_spec (mkReader START_FIELD [] EmptyString) "a")
    as [[Hfull _] | [_ ->]]; cbn [state field fields] in *.
  - rewrite len_Empty in Hfull. unfold field_limit in Hfull. lia.
  - cbn [bind set_state state field fields].
    apply overlong_field; cbn [set_state state field]; [reflexivity | |].
    + rewrite StrFacts.len_snoc, len_Empty. unfold field_limit. lia.
    + rewrite StrFacts.len_snoc, len_Empty. rewrite Nat2N.inj_succ in Hlim. lia.
Qed.

Lemma decode_latin1_repeat (n : nat) :
  decode_latin1 (List.repeat "a"%byte n) = Str.repeat "a" n.
Proof. induction n as [|k IH]; cbn; [reflexivity | now rewrite IH]. Qed.

Lemma universal_newlines_repeat (n : nat) :
  universal_newlines (Str.repeat "a" n) = Str.repeat "a" n.
Proof.
  induction n as [|k IH]; [reflexivity |].
  cbn [Str.repeat].
  change (universal_newlines (String "a" (Str.repeat "a" k)))
    with (String "a" (universal_newlines (Str.repeat "a" k))).
  now rewrite IH.
Qed.

Lemma splitlines_repeat (n : nat) :
  splitlines (Str.repeat "a" (S n)) = [Str.repeat "a" (S n)].
Proof.
  induction n as [|k IH]; [reflexivity |].
  change (splitlines (Str.repeat "a" (S (S k))))
    with (match splitlines (Str.repeat "a" (S k)) with
          | [] => [String "a" EmptyString]
          | l :: ls => String "a" l :: ls
          end).
  now rewrite IH.
Qed.

(** A file that is one field of more characters than the limit: the reader
    raises before it yields anything. *)
Lemma csv_reader_overlong (n : nat) :
  (field_limit < N.of_nat n)%N ->
  csv_reader (infile_lines (List.repeat "a"%byte n)) =
  ([], Some (csv_Error field_larger_than_field_limit)).
Proof.
  intros Hlim. unfold infile_lines.
  rewrite decode_latin1_repeat, universal_newlines_repeat.
  destruct n as [|m]; [cbn in Hlim; lia |].
  rewrite splitlines_repeat. unfold csv_reader. cbn [Reader_run].
  now rewrite (overlong_line (S m) Hlim).
Qed.

(** ** Plain lines: the tab-delimited text the script is meant for *)

Lemma len_app (x y : string) : Str.len (x ++ y) = (Str.len x + Str.len y)%N.
Proof. unfold Str.len. rewrite StrFacts.length_append. lia. Qed.

Lemma shaped_chomp (line : string) :
  line_shaped line = true ->
  exists tail,
    (tail = EmptyString \/ tail = nl) /\ line = chomp line ++ tail /\
    Str.mem LF (chomp line) = false /\ Str.mem CR (chomp line) = false.
Proof.
  induction line as [|c r IH]; cbn [line_shaped chomp]; intros Hshape.
  - exists EmptyString. auto.
  - destruct (Ascii.eqb_spec c LF) as [-> | Hlf].
    + destruct r; [| discriminate]. exists nl. auto.
    + apply andb_true_iff in Hshape. destruct Hshape as [Hcr Hr].
      destruct (IH Hr) as [tail [Ht [E [H1 H2]]]].
      exists tail. split; [exact Ht |]. split; [cbn; now rewrite <- E |].
      apply negb_true_iff in Hcr. apply Ascii.eqb_neq in Hlf.
      cbn [Str.mem]. now rewrite Hlf, Hcr, H1, H2.
Qed.

Lemma split_cons (sep : ascii) (x : string) :
  exists f rest, Str.split sep x = f :: rest.
Proof.
  induction x as [|c r [f [rest E]]]; cbn [Str.split]; [eauto |].
  destruct (Ascii.eqb c sep); [eauto |]. rewrite E. eauto.
Qed.

(** The parser in the middle of a plain line: [cur] is what it has of the
    current field, [body] is what is left of the line before its newline,
    whose first field [f1] completes [cur]. *)
Lemma plain_tail (body : string) :
  forall (st : ParserState) (fs : list string) (cur f1 : string)
         (rest : list string) (tail : string),
    (st = START_FIELD /\ cur = EmptyString /\ Str.starts_with DQUOTE f1 = false)
    \/ st = IN_FIELD ->
    Str.mem LF body = false ->
    Str.mem CR body = false ->
    tail = EmptyString \/ tail = nl ->
    Str.split TAB body = f1 :: rest ->
    (Str.len (cur ++ f1) <= field_limit)%N ->
    forallb field_ok rest = true ->
    parse_process_line (mkReader st fs cur) (body ++ tail) =
    Ok (mkReader START_RECORD (fs ++ (cur ++ f1)%string :: rest)%list EmptyString).
Proof.
  induction body as [|c r IH]; intros st fs cur f1 rest tail Hst Hlf Hcr Htail Hsplit Hlen Hrest.
  - cbn in Hsplit. injection Hsplit as <- <-.
    rewrite StrFacts.append_nil_r.
    destruct Htail as [-> | ->], Hst as [[-> [-> _]] | ->]; reflexivity.
  - cbn [Str.mem] in Hlf, Hcr.
    apply orb_false_iff in Hlf, Hcr. destruct Hlf as [Hlf Hlf'], Hcr as [Hcr Hcr'].
    cbn [Str.split] in Hsplit.
    change ((String c r) ++ tail) with (String c (r ++ tail)).
    cbn [parse_process_line].
    destruct (Ascii.eqb c TAB) eqn:Htab.
    + (* the end of the current field *)
      injection Hsplit as <- Hrest'. rewrite StrFacts.append_nil_r in *.
      destruct (split_cons TAB r) as [f [rest' E]]. rewrite E in Hrest'. subst rest.
      cbn [forallb] in Hrest. apply andb_true_iff in Hrest. destruct Hrest as [Hf Hrest].
      unfold field_ok in Hf. apply andb_true_iff in Hf. destruct Hf as [Hq Hl].
      apply negb_true_iff in Hq. apply N.leb_le in Hl.
      assert (Hstep : parse_process_char (mkReader st fs cur) (Chr c) =
                      Ok (mkReader START_FIELD (fs ++ [cur])%list EmptyString)).
      { destruct Hst as [[-> [-> _]] | ->];
          unfold parse_process_char, parse_start_field, is_newline,
                 set_state, parse_save_field; cbn [state field fields];
          rewrite ?Hlf, ?Hcr, ?Htab; cbn [orb];
          try reflexivity.
        apply Ascii.eqb_eq in Htab. subst c. reflexivity. }
      rewrite Hstep. cbn [bind].
      rewrite (IH START_FIELD (fs ++ [cur])%list EmptyString f rest' tail); auto.
      now rewrite <- app_assoc.
    + (* one more character of the current field *)
      destruct (split_cons TAB r) as [f [rest' E]]. rewrite E in Hsplit.
      injection Hsplit as <- <-.
      rewrite len_app, len_String in Hlen.
      assert (Hstep : parse_process_char (mkReader st fs cur) (Chr c) =
                      Ok (mkReader IN_FIELD fs (cur ++ String c EmptyString))).
      { assert (Hadd : forall st', parse_add_char (mkReader st' fs cur) c =
                         Ok (mkReader st' fs (cur ++ String c EmptyString))).
        { intros st'.
          destruct (parse_add_char_spec (mkReader st' fs cur) c) as [[Hfull _] | [_ ->]];
            cbn [state field fields] in *; [lia | reflexivity]. }
        destruct Hst as [[-> [-> Hq]] | ->];
          unfold parse_process_char, parse_start_field, is_newline, set_state;
          cbn [state field fields];
          rewrite ?Hlf, ?Hcr, ?Htab; cbn [orb].
        - cbn [Str.starts_with] in Hq. rewrite Hq, Hadd. reflexivity.
        - apply Hadd. }
      rewrite Hstep. cbn [bind].
      rewrite (IH IN_FIELD fs (cur ++ String c EmptyString) f rest' tail); auto.
      * now rewrite StrFacts.append_assoc.
      * rewrite StrFacts.append_assoc. cbn [append].
        rewrite len_app, len_String. lia.
Qed.

(** A plain line is one record: its text between the tabs. *)
Lemma plain_line_record (line : string) :
  plain_line line = true ->
  parse_process_line parse_reset line =
  Ok (mkReader START_RECORD (Str.split TAB (chomp line)) EmptyString).
Proof.
  unfold plain_line. intros H.
  apply andb_true_iff in H. destruct H as [H Hfields].
  apply andb_true_iff in H. destruct H as [Hshape Hne].
  destruct (shaped_chomp line Hshape) as [tail [Htail [E [Hlf Hcr]]]].
  rewrite E at 1.
  destruct (chomp line) as [|c r] eqn:Hbody; [discriminate |].
  destruct (split_cons TAB (String c r)) as [f1 [rest Hsplit]].
  rewrite Hsplit in *.
  cbn [forallb] in Hfields. apply andb_true_iff in Hfields.
  destruct Hfields as [Hf Hrest].
  unfold field_ok in Hf. apply andb_true_iff in Hf. destruct Hf as [Hq Hl].
  apply negb_true_iff in Hq. apply N.leb_le in Hl.
  (* the first character of a record is read as the first of a field *)
  assert (Hfirst : parse_process_line parse_reset (String c r ++ tail) =
                   parse_process_line (mkReader START_FIELD [] EmptyString)
                                      (String c r ++ tail)).
  { change ((String c r) ++ tail) with (String c (r ++ tail)).
    cbn [parse_process_line]. f_equal.
    cbn [Str.mem] in Hlf, Hcr.
    apply orb_false_iff in Hlf, Hcr. destruct Hlf as [Hlf _], Hcr as [Hcr _].
    unfold parse_process_char, parse_reset, is_newline, set_state.
    cbn [state field fields]. now rewrite Hlf, Hcr. }
  rewrite Hfirst.
  now rewrite (plain_tail (String c r) START_FIELD [] EmptyString f1 rest tail) by auto.
Qed.

(** A file of plain lines: the reader yields one row for each line. *)
Lemma Reader_run_plain (lines : list string) :
  forallb plain_line lines = true ->
  Reader_run parse_reset lines =
  (map (fun l => Str.split TAB (chomp l)) lines, Ok parse_reset).
Proof.
  induction lines as [|l ls IH]; cbn [forallb]; intros H; [reflexivity |].
  apply andb_true_iff in H. destruct H as [Hl Hls].
  cbn [Reader_run]. rewrite (plain_line_record l Hl). cbn [state fields].
  now rewrite (IH Hls).
Qed.

Lemma csv_reader_plain (lines : list string) :
  forallb plain_line lines = true ->
  csv_reader lines = (map (fun l => Str.split TAB (chomp l)) lines, None).
Proof. intros H. unfold csv_reader. now rewrite (Reader_run_plain lines H). Qed.

(** ** The lines the csv writer writes *)











Lemma filter_not_blank_split (lines : list string) :
  filter not_blank (map (fun l => Str.split TAB (chomp l)) lines) =
  map (fun l => Str.split TAB (chomp l)) lines.
Proof.
  induction lines as [|l ls IH]; [reflexivity |]. cbn [map filter].
  destruct (split_cons TAB (chomp l)) as [f [rest E]]. rewrite E.
  cbn. now rewrite IH.
Qed.

(** ** Input cut at the end of a line *)

Lemma universal_newlines_cons (c : ascii) (r : string) :
  Ascii.eqb c CR = false ->
  universal_newlines (String c r) = String c (universal_newlines r).
Proof. intros H. cbn [universal_newlines]. now rewrite H. Qed.

Lemma universal_newlines_CR (c' : ascii) (r : string) :
  universal_newlines (String CR (String c' r)) =
  if Ascii.eqb c' LF then String LF (universal_newlines r)
  else String LF (universal_newlines (String c' r)).
Proof. reflexivity. Qed.

Lemma universal_newlines_app (x y : string) :
  ends_with_CR x = false ->
  universal_newlines (x ++ y) = universal_newlines x ++ universal_newlines y.
Proof.
  induction x as [| c | c c' r IHr IHc] using string_ind2; intros Hx.
  - reflexivity.
  - cbn [ends_with_CR] in Hx. change (String c EmptyString ++ y) with (String c y).
    rewrite (universal_newlines_cons c y Hx).
    now rewrite (universal_newlines_cons c EmptyString Hx).
  - change (ends_with_CR (String c (String c' r)))
      with (ends_with_CR (String c' r)) in Hx.
    change (String c (String c' r) ++ y) with (String c (String c' (r ++ y))).
    destruct (Ascii.eqb_spec c CR) as [-> | Hc].
    + rewrite !universal_newlines_CR.
      destruct (Ascii.eqb_spec c' LF) as [-> | Hc'].
      * cbn [append]. f_equal. apply IHr.
        destruct r; [reflexivity | exact Hx].
      * change (String c' (r ++ y)) with (String c' r ++ y).
        now rewrite (IHc Hx).
    + apply Ascii.eqb_neq in Hc.
      rewrite (universal_newlines_cons c (String c' (r ++ y)) Hc).
      rewrite (universal_newlines_cons c (String c' r) Hc).
      cbn [append]. f_equal.
      change (String c' (r ++ y)) with (String c' r ++ y). exact (IHc Hx).
Qed.

Lemma ends_with_CR_snoc_LF (x : string) : ends_with_CR (x ++ nl) = false.
Proof.
  induction x as [|c r IH]; [reflexivity |].
  change (String c r ++ nl) with (String c (r ++ nl)). cbn [ends_with_CR].
  destruct (r ++ nl) eqn:E; [| exact IH].
  destruct r; discriminate.
Qed.

Lemma universal_newlines_snoc_LF (x : string) :
  exists z, universal_newlines (x ++ nl) = z ++ nl.
Proof.
  induction x as [| c | c c' r IHr IHc] using string_ind2.
  - exists EmptyString. reflexivity.
  - change (String c EmptyString ++ nl) with (String c nl).
    destruct (Ascii.eqb_spec c CR) as [-> | Hc].
    + exists EmptyString. reflexivity.
    + apply Ascii.eqb_neq in Hc. rewrite universal_newlines_cons by exact Hc.
      exists (String c EmptyString). reflexivity.
  - change (String c (String c' r) ++ nl) with (String c (String c' (r ++ nl))).
    destruct IHr as [zr Er].
    change (String c' r ++ nl) with (String c' (r ++ nl)) in IHc.
    destruct IHc as [zc Ec].
    destruct (Ascii.eqb_spec c CR) as [-> | Hc].
    + rewrite universal_newlines_CR. destruct (Ascii.eqb c' LF).
      * rewrite Er. now exists (String LF zr).
      * rewrite Ec. now exists (String LF zc).
    + apply Ascii.eqb_neq in Hc. rewrite universal_newlines_cons by exact Hc.
      rewrite Ec. now exists (String c zc).
Qed.

Lemma splitlines_snoc_LF (z y : string) :
  splitlines ((z ++ nl) ++ y) = (splitlines (z ++ nl) ++ splitlines y)%list.
Proof.
  induction z as [|c r IH]; [reflexivity |].
  change ((String c r ++ nl) ++ y) with (String c ((r ++ nl) ++ y)).
  change (String c r ++ nl) with (String c (r ++ nl)).
  cbn [splitlines]. rewrite IH.
  destruct (Ascii.eqb c LF); [reflexivity |].
  destruct (splitlines (r ++ nl)) as [|l ls] eqn:E; [| reflexivity].
  exfalso. clear IH. destruct r as [|a r'].
  - discriminate.
  - change (String a r' ++ nl) with (String a (r' ++ nl)) in E.
    cbn [splitlines] in E.
    destruct (Ascii.eqb a LF); [discriminate |].
    destruct (splitlines (r' ++ nl)); discriminate.
Qed.

Lemma whole_lines_text (b : list byte) :
  whole_lines b ->
  decode_latin1 b = EmptyString \/ exists z, decode_latin1 b = z ++ nl.
Proof.
  unfold whole_lines. intros H.
  destruct b as [|a r]; [now left | right].
  rewrite (app_removelast_last "010"%byte (l := a :: r)) by discriminate.
  rewrite H, decode_latin1_app. eexists. reflexivity.
Qed.

(** Lines are split where whole lines end. *)
Lemma infile_lines_app (b1 b2 : list byte) :
  whole_lines b1 ->
  infile_lines (b1 ++ b2) = (infile_lines b1 ++ infile_lines b2)%list.
Proof.
  intros H. unfold infile_lines. rewrite decode_latin1_app.
  destruct (whole_lines_text b1 H) as [-> | [z ->]]; [reflexivity |].
  rewrite universal_newlines_app by apply ends_with_CR_snoc_LF.
  destruct (universal_newlines_snoc_LF z) as [z' ->].
  apply splitlines_snoc_LF.
Qed.

Lemma infile_lines_LF (b : list byte) :
  infile_lines ("010"%byte :: b) = nl :: infile_lines b.
Proof. reflexivity. Qed.

(** ** Records end where lines end *)

Lemma Reader_run_app (l1 l2 : list string) :
  forall (self : ReaderObj) (rows1 : list (list string)),
    Reader_run self l1 = (rows1, Ok parse_reset) ->
    Reader_run self (l1 ++ l2) =
    ((rows1 ++ fst (Reader_run parse_reset l2))%list,
     snd (Reader_run parse_reset l2)).
Proof.
  induction l1 as [|l ls IH]; intros self rows1 H.
  - cbn in H. injection H as <- ->. cbn [app].
    now destruct (Reader_run parse_reset l2).
  - cbn [app Reader_run] in *.
    destruct (parse_process_line self l) as [self' | e]; [| discriminate].
    destruct (state self');
      try (apply IH; exact H).
    destruct (Reader_run parse_reset ls) as [rows' r'] eqn:E.
    injection H as <- ->.
    rewrite (IH parse_reset rows' E). reflexivity.
Qed.

Lemma csv_reader_app (l1 l2 : list string) (rows1 : list (list string)) :
  Reader_run parse_reset l1 = (rows1, Ok parse_reset) ->
  csv_reader (l1 ++ l2) =
  ((rows1 ++ fst (csv_reader l2))%list, snd (csv_reader l2)).
Proof.
  intros H. unfold csv_reader. rewrite (Reader_run_app l1 l2 _ _ H).
  destruct (Reader_run parse_reset l2) as [rows2 [self | e]]; cbn [fst snd].
  - destruct (pending self); cbn [fst snd]; [| reflexivity].
    now rewrite app_assoc.
  - reflexivity.
Qed.

Lemma csv_reader_blank (l2 : list string) :
  csv_reader (nl :: l2) = ([] :: fst (csv_reader l2), snd (csv_reader l2)).
Proof.
  unfold csv_reader.
  change (Reader_run parse_reset (nl :: l2))
    with (let (rows, r) := Reader_run parse_reset l2 in
          (@nil string :: rows, r)).
  destruct (Reader_run parse_reset l2) as [rows2 [self | e]]; cbn [fst snd].
  - destruct (pending self); reflexivity.
  - reflexivity.
Qed.


(** ** The converters, step by step *)

Lemma convert_to_json_raise (input_file output_file : string) (w : World)
    (content : list byte) (e : exception) :
  files w input_file = Some content ->
  json_data content = Raise e ->
  convert_to_json input_file output_file w = (Some e, w).
Proof. intros Hf Hd. unfold convert_to_json. now rewrite Hf, Hd. Qed.

Lemma convert_to_json_ok (input_file output_file : string) (w : World)
    (content : list byte) (data : list pydict) :
  files w input_file = Some content ->
  json_data content = Ok data ->
  convert_to_json input_file output_file w =
  (None, write_file w output_file (utf8_encode (json_dump data))).
Proof. intros Hf Hd. unfold convert_to_json. now rewrite Hf, Hd. Qed.

Lemma convert_to_xml_raise (input_file output_file : string) (w : World)
    (content : list byte) (e : exception) :
  files w input_file = Some content ->
  xml_root content = Raise e ->
  convert_to_xml input_file output_file w = (Some e, w).
Proof. intros Hf Hd. unfold convert_to_xml. now rewrite Hf, Hd. Qed.

Lemma convert_to_xml_ok (input_file output_file : string) (w : World)
    (content : list byte) (root : Element) :
  files w input_file = Some content ->
  xml_root content = Ok root ->
  convert_to_xml input_file output_file w =
  (snd (ElementTree_write root),
   write_file (write_file w output_file []) output_file
              (utf8_encode (fst (ElementTree_write root)))).
Proof.
  intros Hf Hd. unfold convert_to_xml. rewrite Hf, Hd.
  now destruct (ElementTree_write root).
Qed.

Lemma convert_to_csv_eq (input_file output_file : string) (w : World)
    (content : list byte) :
  files w input_file = Some content ->
  let read := if String.eqb input_file output_file then [] else content in
  convert_to_csv input_file output_file w =
  (snd (csv_text read),
   write_file (write_file w output_file []) output_file
              (utf8_encode (fst (csv_text read)))).
Proof.
  intros Hf. unfold convert_to_csv, read_open_file. rewrite Hf.
  cbn [write_file files]. rewrite Hf.
  now destruct (String.eqb input_file output_file); destruct (csv_text _).
Qed.

Lemma json_data_error (content : list byte) (e : exception) :
  json_data content = Raise e ->
  e = csv_Error field_larger_than_field_limit /\
  (field_limit < N.of_nat (List.length content))%N.
Proof.
  unfold json_data, DictReader.
  destruct (csv_reader (infile_lines content)) as [rows [e' |]] eqn:E.
  - destruct rows; intros [= <-]; exact (csv_reader_error _ _ _ E).
  - destruct rows; discriminate.
Qed.

Lemma xml_root_error (content : list byte) (e : exception) :
  xml_root content = Raise e ->
  e = csv_Error field_larger_than_field_limit /\
  (field_limit < N.of_nat (List.length content))%N.
Proof.
  unfold xml_root. destruct (json_data content) as [data | e'] eqn:E; [discriminate |].
  intros [= <-]. exact (json_data_error _ _ E).
Qed.

Lemma csv_text_error (content : list byte) (e : exception) :
  snd (csv_text content) = Some e ->
  e = csv_Error field_larger_than_field_limit /\
  (field_limit < N.of_nat (List.length content))%N.
Proof.
  unfold csv_text.
  destruct (csv_reader (infile_lines content)) as [rows e'] eqn:E. cbn [snd].
  intros ->. exact (csv_reader_error _ _ _ E).
Qed.

(** ** [main], case by case *)

Lemma main_usage (argv : list string) (w : World) :
  List.length argv <> 3 -> main argv w = (SystemExit 1, print w usage_message).
Proof.
  intros H. unfold main. apply Nat.eqb_neq in H. now rewrite H.
Qed.

Lemma main_csv (prog input_file : string) (w : World) :
  main [prog; input_file; "-c"] w =
  finish "output.csv" (convert_to_csv input_file "output.csv" w).
Proof. reflexivity. Qed.

Lemma main_json (prog input_file : string) (w : World) :
  main [prog; input_file; "-j"] w =
  finish "output.json" (convert_to_json input_file "output.json" w).
Proof. reflexivity. Qed.

Lemma main_xml (prog input_file : string) (w : World) :
  main [prog; input_file; "-x"] w =
  finish "output.xml" (convert_to_xml input_file "output.xml" w).
Proof. reflexivity. Qed.

Lemma main_invalid_flag (prog input_file format_flag : string) (w : World) :
  format_flag <> "-c" -> format_flag <> "-j" -> format_flag <> "-x" ->
  main [prog; input_file; format_flag] w =
  (SystemExit 1, print w invalid_flag_message).
Proof.
  intros Hc Hj Hx. unfold main. cbn [List.length Nat.eqb negb nth].
  apply String.eqb_neq in Hc, Hj, Hx. now rewrite Hc, Hj, Hx.
Qed.

(** ** Two runs on the same input *)

Lemma same_effect_raise (w1 w2 : World) (e : exception) :
  same_effect w1 w2 (Some e, w1) (Some e, w2).
Proof. repeat split; right; split; reflexivity. Qed.

Lemma same_effect_write (w1 w2 : World) (e : option exception)
    (output_file : string) (out : list byte) :
  same_effect w1 w2
    (e, write_file (write_file w1 output_file []) output_file out)
    (e, write_file (write_file w2 output_file []) output_file out).
Proof.
  repeat split. intros p. unfold same_effect_at. cbn [snd write_file files].
  destruct (String.eqb p output_file); [left | right]; auto.
Qed.

Lemma convert_to_csv_same (input_file output_file : string) (w1 w2 : World) :
  files w1 input_file = files w2 input_file ->
  same_effect w1 w2 (convert_to_csv input_file output_file w1)
                    (convert_to_csv input_file output_file w2).
Proof.
  intros H. destruct (files w2 input_file) as [content |] eqn:E.
  - rewrite (convert_to_csv_eq _ _ w1 content H), (convert_to_csv_eq _ _ w2 content E).
    apply same_effect_write.
  - unfold convert_to_csv. rewrite H, E. apply same_effect_raise.
Qed.

Lemma convert_to_json_same (input_file output_file : string) (w1 w2 : World) :
  files w1 input_file = files w2 input_file ->
  same_effect w1 w2 (convert_to_json input_file output_file w1)
                    (convert_to_json input_file output_file w2).
Proof.
  intros H. unfold convert_to_json. rewrite H.
  destruct (files w2 input_file) as [content |]; [| apply same_effect_raise].
  destruct (json_data content) as [data | e]; [| apply same_effect_raise].
  repeat split. intros p. unfold same_effect_at. cbn [snd write_file files].
  destruct (String.eqb p output_file); [left | right]; auto.
Qed.

Lemma convert_to_xml_same (input_file output_file : string) (w1 w2 : World) :
  files w1 input_file = files w2 input_file ->
  same_effect w1 w2 (convert_to_xml input_file output_file w1)
                    (convert_to_xml input_file output_file w2).
Proof.
  intros H. destruct (files w2 input_file) as [content |] eqn:E.
  - destruct (xml_root content) as [root | e] eqn:R.
    + rewrite (convert_to_xml_ok _ _ w1 content root H R),
              (convert_to_xml_ok _ _ w2 content root E R).
      apply same_effect_write.
    + rewrite (convert_to_xml_raise _ _ w1 content e H R),
              (convert_to_xml_raise _ _ w2 content e E R).
      apply same_effect_raise.
  - unfold convert_to_xml. rewrite H, E. apply same_effect_raise.
Qed.

Lemma finish_same (output_file : string) (w1 w2 : World)
    (r1 r2 : option exception * World) :
  same_effect w1 w2 r1 r2 ->
  same_run w1 w2 (finish output_file r1) (finish output_file r2).
Proof.
  destruct r1 as [e1 a1], r2 as [e2 a2]. intros [He [H1 [H2 Hp]]].
  cbn [fst snd] in *. subst e2. unfold finish.
  destruct e1 as [e |]; cbn [fst snd print files stdout].
  - split; [reflexivity |]. split; [| exact Hp].
    exists []. now rewrite !app_nil_r.
  - split; [reflexivity |]. split; [| exact Hp].
    exists ["Conversion complete. Output saved to " ++ output_file].
    unfold print. cbn [snd stdout]. rewrite H1, H2. split; reflexivity.
Qed.

Lemma print_same (w1 w2 : World) (t : termination) (line : string) :
  same_run w1 w2 (t, print w1 line) (t, print w2 line).
Proof.
  split; [reflexivity |]. split.
  - exists [line]. split; reflexivity.
  - intros p. right. split; reflexivity.
Qed.

Lemma main_same_run (argv : list string) (w1 w2 : World) :
  files w1 (nth 1 argv EmptyString) = files w2 (nth 1 argv EmptyString) ->
  same_run w1 w2 (main argv w1) (main argv w2).
Proof.
  intros H. unfold main.
  destruct (negb (List.length argv =? 3)%nat); [apply print_same |].
  destruct (String.eqb (nth 2 argv EmptyString) "-c");
    [apply finish_same, convert_to_csv_same, H |].
  destruct (String.eqb (nth 2 argv EmptyString) "-j");
    [apply finish_same, convert_to_json_same, H |].
  destruct (String.eqb (nth 2 argv EmptyString) "-x");
    [apply finish_same, convert_to_xml_same, H |].
  apply print_same.
Qed.

(** ** Writing the XML tree *)

Lemma Element_ind' (P : Element -> Prop) :
  (forall t x cs, Forall P cs -> P (mkElement t x cs)) ->
  forall e, P e.
Proof.
  intros H. fix IH 1. intros [t x cs]. apply H.
  induction cs as [|c r IHr]; constructor; [apply IH | exact IHr].
Qed.

Lemma writable_mk (t : pykey) (x : pyval) (cs : list Element) :
  writable (mkElement t x cs) =
  plain_tag t && writable_text x && forallb writable cs.
Proof.
  reflexivity.
Qed.

Lemma _namespaces_mk (tb : ns_tables) (t : pykey) (x : pyval) (cs : list Element) :
  _namespaces tb (mkElement t x cs) =
  (tb' <- match t with
          | None => Ok tb
          | Some name =>
              match assoc_get (qnames tb) name with
              | Some _ => Ok tb
              | None => add_qname tb name
              end
          end ;;
   fold_left (fun r c => tb0 <- r ;; _namespaces tb0 c) cs (Ok tb')).
Proof.
  cbn [_namespaces].
  destruct (match t with
            | None => Ok tb
            | Some name =>
                match assoc_get (qnames tb) name with
                | Some _ => Ok tb
                | None => add_qname tb name
                end
            end) as [tb' | e]; cbn [bind]; [| reflexivity].
  revert tb'. induction cs as [|c r IH]; intros tb'; [reflexivity |].
  cbn [fold_left bind]. destruct (_namespaces tb' c) as [tb1 | e]; cbn [bind].
  - apply IH.
  - clear IH. induction r as [|c' r' IHr]; [reflexivity | exact IHr].
Qed.

(** No tag in a namespace: [_namespaces] does not raise. *)
Lemma _namespaces_writable (e : Element) :
  forall tb, writable e = true -> exists tb', _namespaces tb e = Ok tb'.
Proof.
  induction e as [t x cs IH] using Element_ind'. intros tb Hw.
  rewrite writable_mk in Hw. apply andb_true_iff in Hw. destruct Hw as [Hw Hcs].
  apply andb_true_iff in Hw. destruct Hw as [Ht _].
  rewrite _namespaces_mk.
  assert (Hfirst : exists tb1,
             match t with
             | None => Ok tb
             | Some name =>
                 match assoc_get (qnames tb) name with
                 | Some _ => Ok tb
                 | None => add_qname tb name
                 end
             end = Ok tb1).
  { destruct t as [name |]; [| eauto].
    destruct (assoc_get (qnames tb) name); [eauto |].
    unfold add_qname. cbn [plain_tag] in Ht. apply negb_true_iff in Ht.
    rewrite Ht. eauto. }
  destruct Hfirst as [tb1 ->]. cbn [bind]. clear Ht tb.
  revert tb1. induction cs as [|c r IHr]; intros tb1; cbn [fold_left bind]; [eauto |].
  cbn [forallb] in Hcs. apply andb_true_iff in Hcs. destruct Hcs as [Hc Hr].
  inversion IH as [|? ? IHc IHrest]; subst.
  destruct (IHc tb1 Hc) as [tb2 ->]. cbn [bind]. now apply IHr.
Qed.

Lemma _serialize_xml_mk (qn nss : list (string * string)) (t : pykey)
    (x : pyval) (cs : list Element) (k : written) :
  _serialize_xml qn nss (mkElement t x cs) k =
  let body (k' : written) : written :=
    (if truthy x then write_text x else fun k0 => k0)
      (fold_right (fun c k0 => _serialize_xml qn [] c k0) k' cs) in
  match lookup_qname qn t with
  | None => body k
  | Some name =>
      write_then ("<" ++ name ++ xmlns_attributes nss)
        (if truthy x || negb (match cs with [] => true | _ => false end)
         then write_then ">" (body (write_then ("</" ++ name ++ ">") k))
         else write_then " />" k)
  end.
Proof.
  cbn [_serialize_xml]. cbv zeta.
  assert (E : forall k',
             (fix over (cs0 : list Element) (k0 : written) {struct cs0} : written :=
                match cs0 with
                | [] => k0
                | c :: r => _serialize_xml qn [] c (over r k0)
                end) cs k' =
             fold_right (fun c k0 => _serialize_xml qn [] c k0) k' cs).
  { intros k'. induction cs as [|c r IH]; [reflexivity |].
    cbn [fold_right]. now rewrite <- IH. }
  destruct (lookup_qname qn t); now rewrite !E.
Qed.

(** No text that cannot be written: [_serialize_xml] does not raise. *)
Lemma _serialize_xml_writable (e : Element) :
  forall qn nss k,
    writable e = true -> snd (_serialize_xml qn nss e k) = snd k.
Proof.
  induction e as [t x cs IH] using Element_ind'. intros qn nss k Hw.
  rewrite writable_mk in Hw. apply andb_true_iff in Hw. destruct Hw as [Hw Hcs].
  apply andb_true_iff in Hw. destruct Hw as [_ Hx].
  rewrite _serialize_xml_mk. cbv zeta.
  assert (Hchildren : forall k',
             snd (fold_right (fun c k0 => _serialize_xml qn [] c k0) k' cs) = snd k').
  { intros k'. induction cs as [|c r IHr]; [reflexivity |].
    cbn [forallb] in Hcs. apply andb_true_iff in Hcs. destruct Hcs as [Hc Hr].
    inversion IH as [|? ? IHc IHrest]; subst.
    cbn [fold_right]. rewrite (IHc qn [] _ Hc). now apply IHr. }
  assert (Hbody : forall k',
             snd ((if truthy x then write_text x else fun k0 => k0)
                    (fold_right (fun c k0 => _serialize_xml qn [] c k0) k' cs)) =
             snd k').
  { intros k'. destruct x as [v | | [|a l]]; cbn [truthy negb writable_text] in *;
      try discriminate; try apply Hchildren.
    destruct (Str.is_empty v); cbn [negb write_text write_then snd];
      apply Hchildren. }
  destruct (lookup_qname qn t) as [name |]; [| apply Hbody].
  destruct (truthy x || negb match cs with [] => true | _ => false end);
    cbn [write_then snd]; [now rewrite Hbody | reflexivity].
Qed.

Lemma ElementTree_write_writable (root : Element) :
  writable root = true -> snd (ElementTree_write root) = None.
Proof.
  intros Hw. unfold ElementTree_write.
  destruct (_namespaces_writable root {| qnames := []; namespaces := [] |} Hw)
    as [tb ->].
  now rewrite _serialize_xml_writable.
Qed.

(** The values of a row that is not longer than the header are fields and
    [None]. *)
Lemma dict_set_texts (d : pydict) (k : pykey) (v : pyval) :
  writable_text v = true ->
  Forall (fun kv => writable_text (snd kv) = true) d ->
  Forall (fun kv => writable_text (snd kv) = true) (dict_set d k v).
Proof.
  intros Hv. induction d as [|[k0 v0] r IH]; intros Hd; cbn [dict_set].
  - constructor; [exact Hv | constructor].
  - inversion Hd; subst. destruct (pykey_eqb k0 k); constructor; auto.
Qed.

Lemma set_fields_texts (kvs : list (string * string)) (d : pydict) :
  Forall (fun kv => writable_text (snd kv) = true) d ->
  Forall (fun kv => writable_text (snd kv) = true) (set_fields d kvs).
Proof.
  revert d. induction kvs as [|kv r IH]; intros d Hd; [exact Hd |].
  unfold set_fields in *. cbn [fold_left]. apply IH. now apply dict_set_texts.
Qed.

Lemma set_restval_texts (ks : list string) (d : pydict) :
  Forall (fun kv => writable_text (snd kv) = true) d ->
  Forall (fun kv => writable_text (snd kv) = true) (set_restval d ks).
Proof.
  revert d. induction ks as [|k r IH]; intros d Hd; [exact Hd |].
  unfold set_restval in *. cbn [fold_left]. apply IH. now apply dict_set_texts.
Qed.

Lemma forallb_over_map {A B : Type} (f : B -> bool) (g : A -> B) (l : list A) :
  forallb f (map g l) = forallb (fun a => f (g a)) l.
Proof. induction l as [|a r IH]; [reflexivity |]. cbn. now rewrite IH. Qed.

Lemma item_writable (fieldnames row : list string) :
  Forall (fun name => Str.starts_with "{" name = false) fieldnames ->
  List.length row <= List.length fieldnames ->
  writable (item_of_row (DictReader_row fieldnames row)) = true.
Proof.
  intros Hnames Hlen. unfold item_of_row. rewrite writable_mk. cbn [plain_tag writable_text andb].
  rewrite forallb_over_map. apply forallb_forall. intros [k v] Hin.
  rewrite writable_mk. cbn [fst snd forallb]. rewrite andb_true_r.
  apply andb_true_iff. split.
  - assert (Hk : In k (dict_keys (DictReader_row fieldnames row)))
      by (unfold dict_keys; apply in_map_iff; exists (k, v); auto).
    apply DictReader_row_keys in Hk. destruct Hk as [[name [-> Hname]] | [_ Hlong]]; [| lia].
    cbn [plain_tag]. rewrite Forall_forall in Hnames. now rewrite (Hnames name Hname).
  - assert (Hall : Forall (fun kv => writable_text (snd kv) = true)
                          (DictReader_row fieldnames row)).
    { rewrite DictReader_row_eq. cbv zeta.
      destruct (Nat.ltb_spec (List.length fieldnames) (List.length row)); [lia |].
      destruct (Nat.ltb_spec (List.length row) (List.length fieldnames)).
      - apply set_restval_texts, set_fields_texts. constructor.
      - apply set_fields_texts. constructor. }
    rewrite Forall_forall in Hall. exact (Hall (k, v) Hin).
Qed.

(** When no data row is longer than the header and no field name opens a
    namespace, [tree.write] writes the whole tree and the run returns. *)
Lemma xml_written_whole
    (content : list byte) (fieldnames : list string) (rows : list (list string)) :
  csv_reader (infile_lines content) = (fieldnames :: rows, None) ->
  Forall (fun name => Str.starts_with "{" name = false) fieldnames ->
  Forall (fun row => List.length row <= List.length fieldnames) rows ->
  exists root,
    xml_root content = Ok root /\
    snd (ElementTree_write root) = None /\
    forall w input_file output_file,
      files w input_file = Some content ->
      convert_to_xml input_file output_file w =
        (None, write_file (write_file w output_file []) output_file
                          (utf8_encode (fst (ElementTree_write root)))).
Proof.
  intros Hread Hnames Hrows. eexists.
  split; [exact (xml_root_rows _ _ _ Hread) |].
  assert (Hw : snd (ElementTree_write
                      (root_of_rows (map (DictReader_row fieldnames)
                                         (filter not_blank rows)))) = None).
  { apply ElementTree_write_writable. unfold root_of_rows. rewrite writable_mk.
    cbn [plain_tag writable_text andb]. rewrite !forallb_over_map.
    apply forallb_forall. intros row Hin. apply filter_In in Hin.
    rewrite Forall_forall in Hrows. apply item_writable; [exact Hnames |].
    apply Hrows, Hin. }
  split; [exact Hw |].
  intros w input_file output_file Hf.
  rewrite (convert_to_xml_ok _ _ _ _ _ Hf (xml_root_rows _ _ _ Hread)).
  now rewrite Hw.
Qed.

(** * The reader on a few inputs *)

(** Lines that end in "\r\n", "\r" and "\n", and a blank one. *)
Example reader_line_ends :
  csv_reader (infile_lines (list_byte_of_string
    ("a" ++ cr ++ nl ++ "b" ++ cr ++ "c" ++ nl ++ cr ++ nl))) =
  ([["a"]; ["b"]; ["c"]; []], None).
Proof. reflexivity. Qed.

(** A quoted field keeps its tab and its newline, and a doubled quote in
    it is one quote. *)
Example reader_quoted_field :
  csv_reader (infile_lines (list_byte_of_string
    (dq ++ "a" ++ tab ++ "b" ++ nl ++ "c" ++ dq ++ dq ++ "d" ++ dq ++ tab ++ "e" ++ nl))) =
  ([["a" ++ tab ++ "b" ++ nl ++ "c" ++ dq ++ "d"; "e"]], None).
Proof. reflexivity. Qed.

(** A quote inside a field that did not start with one is a character like
    the others. *)
Example reader_quote_inside_field :
  csv_reader (infile_lines (list_byte_of_string ("a" ++ dq ++ "b" ++ tab ++ "c" ++ nl))) =
  ([["a" ++ dq ++ "b"; "c"]], None).
Proof. reflexivity. Qed.

(** A quoted field still open when the input ends is the last field. *)
Example reader_open_quote_at_end :
  csv_reader (infile_lines (list_byte_of_string
    ("x" ++ tab ++ "y" ++ nl ++ dq ++ "a" ++ nl ++ nl))) =
  ([["x"; "y"]; ["a" ++ nl ++ nl]], None).
Proof. reflexivity. Qed.

(** A last line without a newline, ending on a tab. *)
Example reader_no_final_newline :
  csv_reader (infile_lines (list_byte_of_string ("a" ++ tab))) =
  ([["a"; EmptyString]], None).
Proof. reflexivity. Qed.

(** What the writer quotes: a comma, a quote, which it doubles, and a row
    that is one empty field. *)
Example writer_quoting :
  writerow ["a,b"; "c" ++ dq; "d"] =
    dq ++ "a,b" ++ dq ++ "," ++ dq ++ "c" ++ dq ++ dq ++ dq ++ ",d" ++ lineterminator /\
  writerow [EmptyString] = dq ++ dq ++ lineterminator /\
  writerow [EmptyString; EmptyString] = "," ++ lineterminator.
Proof. repeat split. Qed.

(** * The scenarios of the specification *)

(** Scenario 1: flag -c. *)
Example scenario_1_csv :
  main ["Formater.py"; "in.tsv"; "-c"] (world_with scenario_input) =
  (Returned,
   print (write_file (write_file (world_with scenario_input) "output.csv" [])
                     "output.csv"
                     (utf8_encode ("name,age" ++ lineterminator
                                   ++ "Alice,30" ++ lineterminator
                                   ++ "Bob,25" ++ lineterminator)))
         "Conversion complete. Output saved to output.csv").
Proof. reflexivity. Qed.

(** Scenario 2: flag -j. *)
Example scenario_2_json :
  json_data scenario_input =
  Ok [[(Some "name", PyStr "Alice"); (Some "age", PyStr "30")];
      [(Some "name", PyStr "Bob"); (Some "age", PyStr "25")]] /\
  fst (main ["Formater.py"; "in.tsv"; "-j"] (world_with scenario_input)) = Returned.
Proof. split; reflexivity. Qed.

(** Scenario 3: flag -x. *)
Example scenario_3_xml :
  exists root,
    xml_root scenario_input = Ok root /\
    ElementTree_write root =
    ("<root><item><name>Alice</name><age>30</age></item><item><name>Bob</name><age>25</age></item></root>",
     None).
Proof. eexists. split; reflexivity. Qed.

(** A row longer than the header, flag -x: the child that holds the extra
    fields cannot be written, and the run ends on [TypeError] with what was
    written before it in the file. *)
Example long_row_xml_write_raises :
  let r := main ["Formater.py"; "in.tsv"; "-x"] (world_with long_row_input) in
  fst r = Uncaught TypeError /\
  files (snd r) "output.xml" = Some (utf8_encode "<root><item><a>1</a>").
Proof. split; reflexivity. Qed.

(** * More of what the script does *)

(** ** The files and the lines printed *)

Lemma write_file_other (w : World) (path p : string) (content : list byte) :
  p <> path -> files (write_file w path content) p = files w p.
Proof.
  intros Hp. cbn. destruct (String.eqb_spec p path); [contradiction | reflexivity].
Qed.

Lemma write_file_here (w : World) (path : string) (content : list byte) :
  files (write_file w path content) path = Some content.
Proof. cbn. now rewrite String.eqb_refl. Qed.

Lemma convert_to_csv_keeps : keeps_to_output convert_to_csv.
Proof.
  intros i o w. unfold convert_to_csv.
  destruct (files w i) as [content|].
  - destruct (csv_text _) as [out e]. cbn [fst snd]. repeat split.
    + rewrite write_file_here. discriminate.
    + intros p Hp. now rewrite !write_file_other.
  - cbn. repeat split; discriminate.
Qed.

Lemma convert_to_json_keeps : keeps_to_output convert_to_json.
Proof.
  intros i o w. unfold convert_to_json.
  destruct (files w i) as [content|].
  - destruct (json_data content) as [data|e]; cbn [fst snd]; repeat split;
      try discriminate.
    + rewrite write_file_here. discriminate.
    + intros p Hp. now rewrite write_file_other.
  - cbn. repeat split; discriminate.
Qed.

Lemma convert_to_xml_keeps : keeps_to_output convert_to_xml.
Proof.
  intros i o w. unfold convert_to_xml.
  destruct (files w i) as [content|].
  - destruct (xml_root content) as [root|e]; cbn [fst snd].
    + destruct (ElementTree_write root) as [out e]. cbn [fst snd]. repeat split.
      * rewrite write_file_here. discriminate.
      * intros p Hp. now rewrite !write_file_other.
    + repeat split; discriminate.
  - cbn. repeat split; discriminate.
Qed.

(** [finish] after a converter that keeps to its output. *)
Lemma finish_keeps conv (input_file output_file : string) (w : World) :
  keeps_to_output conv ->
  match fst (finish output_file (conv input_file output_file w)) with
  | Returned =>
      stdout (snd (finish output_file (conv input_file output_file w)))
      = (stdout w ++ [complete_message output_file])%list /\
      files (snd (finish output_file (conv input_file output_file w))) output_file
      <> None
  | SystemExit _ => False
  | Uncaught e =>
      stdout (snd (finish output_file (conv input_file output_file w))) = stdout w
  end /\
  forall p, p <> output_file ->
            files (snd (finish output_file (conv input_file output_file w))) p
            = files w p.
Proof.
  intros H. destruct (H input_file output_file w) as (Hout & Hmade & Hother).
  destruct (conv input_file output_file w) as [[e|] w']; cbn in *.
  - split; assumption.
  - split; [split |]; [now rewrite Hout | now apply Hmade | assumption].
Qed.

(** X1.  When the input file does not exist, each of the three conversions
    ends with an uncaught [FileNotFoundError] for that path: nothing is
    printed and no file is made or changed, the output file included. *)
Theorem missing_input_file_is_uncaught_error
    (prog input_file format_flag : string) (w : World) :
  files w input_file = None ->
  format_flag = "-c" \/ format_flag = "-j" \/ format_flag = "-x" ->
  main [prog; input_file; format_flag] w
  = (Uncaught (FileNotFoundError input_file), w).
Proof.
  intros Hnone [-> | [-> | ->]]; cbn;
    unfold convert_to_csv, convert_to_json, convert_to_xml;
    rewrite Hnone; reflexivity.
Qed.

Lemma missing_input_file_is_uncaught_error_witness :
  main ["Formater.py"; "absent.tsv"; "-j"] (world_with scenario_input)
  = (Uncaught (FileNotFoundError "absent.tsv"), world_with scenario_input).
Proof.
  apply missing_input_file_is_uncaught_error; [reflexivity | right; left; reflexivity].
Defined.

(** X2.  A run changes no file but the output of the chosen format: for
    every path, the file is after the run what it was before, unless the
    flag is [-c] and the path [output.csv], or [-j] and [output.json], or
    [-x] and [output.xml].  The input file is never changed under any other
    name. *)
Theorem only_the_output_file_changes (argv : list string) (w : World) (p : string) :
  files (snd (main argv w)) p = files w p \/
  (nth 2 argv EmptyString = "-c" /\ p = "output.csv") \/
  (nth 2 argv EmptyString = "-j" /\ p = "output.json") \/
  (nth 2 argv EmptyString = "-x" /\ p = "output.xml").
Proof.
  unfold main.
  destruct (negb (List.length argv =? 3)%nat); [now left |].
  destruct (String.eqb_spec (nth 2 argv EmptyString) "-c") as [Hc|_].
  { destruct (String.eqb_spec p "output.csv") as [->|Hp]; [now right; left |].
    left. now apply (finish_keeps convert_to_csv _ _ w convert_to_csv_keeps). }
  destruct (String.eqb_spec (nth 2 argv EmptyString) "-j") as [Hj|_].
  { destruct (String.eqb_spec p "output.json") as [->|Hp]; [now right; right; left |].
    left. now apply (finish_keeps convert_to_json _ _ w convert_to_json_keeps). }
  destruct (String.eqb_spec (nth 2 argv EmptyString) "-x") as [Hx|_].
  { destruct (String.eqb_spec p "output.xml") as [->|Hp]; [now right; right; right |].
    left. now apply (finish_keeps convert_to_xml _ _ w convert_to_xml_keeps). }
  now left.
Qed.

(** X3.  How a run ends and what it prints.  When [main] returns, the one
    line printed is the completion message naming the output file of the
    flag, and that file exists.  When it exits through [sys.exit], the
    status is 1, the one line printed is the usage or the invalid-flag
    message, and no file has changed.  When an exception is not caught,
    nothing is printed: the completion message is never printed after a
    failure. *)
Theorem how_a_run_ends (argv : list string) (w : World) :
  match fst (main argv w) with
  | Returned =>
      exists output_file,
        In (nth 2 argv EmptyString, output_file)
           [("-c", "output.csv"); ("-j", "output.json"); ("-x", "output.xml")] /\
        stdout (snd (main argv w)) = (stdout w ++ [complete_message output_file])%list /\
        files (snd (main argv w)) output_file <> None
  | SystemExit status =>
      status = 1 /\
      files (snd (main argv w)) = files w /\
      (stdout (snd (main argv w)) = (stdout w ++ [usage_message])%list \/
       stdout (snd (main argv w)) = (stdout w ++ [invalid_flag_message])%list)
  | Uncaught _ => stdout (snd (main argv w)) = stdout w
  end.
Proof.
  unfold main.
  destruct (negb (List.length argv =? 3)%nat); [cbn; auto |].
  destruct (String.eqb_spec (nth 2 argv EmptyString) "-c") as [Hc|_].
  { pose proof (finish_keeps convert_to_csv (nth 1 argv EmptyString) "output.csv" w
                  convert_to_csv_keeps) as [H _].
    destruct (fst (finish _ _)); [| contradiction | exact H].
    exists "output.csv". rewrite Hc. split; [now left | exact H]. }
  destruct (String.eqb_spec (nth 2 argv EmptyString) "-j") as [Hj|_].
  { pose proof (finish_keeps convert_to_json (nth 1 argv EmptyString) "output.json" w
                  convert_to_json_keeps) as [H _].
    destruct (fst (finish _ _)); [| contradiction | exact H].
    exists "output.json". rewrite Hj. split; [now right; left | exact H]. }
  destruct (String.eqb_spec (nth 2 argv EmptyString) "-x") as [Hx|_].
  { pose proof (finish_keeps convert_to_xml (nth 1 argv EmptyString) "output.xml" w
                  convert_to_xml_keeps) as [H _].
    destruct (fst (finish _ _)); [| contradiction | exact H].
    exists "output.xml". rewrite Hx. split; [now right; right; left | exact H]. }
  cbn. auto.
Qed.

(** [convert_to_csv] on a file given as both input and output. *)
Lemma convert_to_csv_onto_input (path : string) (w : World) (content : list byte) :
  files w path = Some content ->
  convert_to_csv path path w = (None, write_file (write_file w path []) path []).
Proof.
  intros Hin. unfold convert_to_csv, read_open_file.
  rewrite Hin, write_file_here. reflexivity.
Qed.

(** X4.  [convert_to_csv] opens its output for writing before it reads a
    row, so a file given as both input and output is emptied before it is
    read.  Run with [-c] on an existing file named [output.csv], the script
    returns, prints the completion message and leaves [output.csv] empty,
    whatever it held: the data is lost. *)
Theorem csv_onto_its_input_empties_it (prog : string) (w : World) (content : list byte) :
  files w "output.csv" = Some content ->
  fst (main [prog; "output.csv"; "-c"] w) = Returned /\
  stdout (snd (main [prog; "output.csv"; "-c"] w))
  = (stdout w ++ [complete_message "output.csv"])%list /\
  files (snd (main [prog; "output.csv"; "-c"] w)) "output.csv" = Some [].
Proof.
  intros Hin. unfold main. cbn [List.length Nat.eqb negb nth].
  change (String.eqb "-c" "-c") with true. cbn iota.
  rewrite (convert_to_csv_onto_input _ _ _ Hin).
  cbn [finish fst snd print files stdout].
  split; [reflexivity |]. split; [reflexivity | apply write_file_here].
Qed.

Lemma csv_onto_its_input_empties_it_witness :
  fst (main ["Formater.py"; "output.csv"; "-c"]
            (write_file (world_with []) "output.csv" scenario_input)) = Returned /\
  stdout (snd (main ["Formater.py"; "output.csv"; "-c"]
                    (write_file (world_with []) "output.csv" scenario_input)))
  = (stdout (write_file (world_with []) "output.csv" scenario_input)
       ++ [complete_message "output.csv"])%list /\
  files (snd (main ["Formater.py"; "output.csv"; "-c"]
                   (write_file (world_with []) "output.csv" scenario_input)))
        "output.csv" = Some [].
Proof.
  apply (csv_onto_its_input_empties_it "Formater.py"
           (write_file (world_with []) "output.csv" scenario_input) scenario_input).
  reflexivity.
Defined.

(** ** Inputs without data rows *)

Lemma blank_rows_filtered (rows : list (list string)) :
  (forall row, In row rows -> row = []) ->
  filter (fun row => negb (is_blank_row row)) rows = [].
Proof.
  induction rows as [|row rest IH]; intros Hblank; [reflexivity |].
  cbn [filter]. rewrite (Hblank row) by now left. cbn.
  apply IH. intros r Hr. apply Hblank. now right.
Qed.

(** X5.  An input without data rows (an empty file, a header alone, or a
    header followed by blank lines only) is converted without an exception:
    [-j] writes the empty JSON list and [-x] writes the empty root
    element. *)
Theorem no_data_rows_give_empty_documents
    (input_file output_file : string) (w : World) (content : list byte)
    (rows : list (list string)) :
  files w input_file = Some content ->
  csv_reader (infile_lines content) = (rows, None) ->
  (forall row, In row (tl rows) -> row = []) ->
  convert_to_json input_file output_file w
  = (None, write_file w output_file (list_byte_of_string "[]")) /\
  convert_to_xml input_file output_file w
  = (None, write_file (write_file w output_file []) output_file
                      (list_byte_of_string "<root />")).
Proof.
  intros Hin Hrows Hblank.
  assert (Hdata : json_data content = Ok []).
  { unfold json_data. rewrite Hrows. destruct rows as [|fieldnames rest]; [reflexivity |].
    cbn [DictReader]. cbn [tl] in Hblank.
    rewrite (blank_rows_filtered rest Hblank). reflexivity. }
  split.
  - unfold convert_to_json. rewrite Hin, Hdata. reflexivity.
  - unfold convert_to_xml, xml_root. rewrite Hin, Hdata. reflexivity.
Qed.

Lemma no_data_rows_give_empty_documents_witness :
  convert_to_json "in.tsv" "output.xml" (world_with header_only_input)
  = (None, write_file (world_with header_only_input) "output.xml"
                      (list_byte_of_string "[]")) /\
  convert_to_xml "in.tsv" "output.xml" (world_with header_only_input)
  = (None, write_file (write_file (world_with header_only_input) "output.xml" [])
                      "output.xml" (list_byte_of_string "<root />")).
Proof.
  apply (no_data_rows_give_empty_documents "in.tsv" "output.xml"
           (world_with header_only_input) header_only_input [["name"; "age"]]).
  - reflexivity.
  - reflexivity.
  - cbn. intros row [].
Defined.

(** ** The dictionary of a row *)



Lemma combine_app {A B : Type} (l1 l2 : list A) (r1 r2 : list B) :
  List.length r1 = List.length l1 ->
  combine (l1 ++ l2) (r1 ++ r2) = (combine l1 r1 ++ combine l2 r2)%list.
Proof.
  revert r1. induction l1 as [|a l IH]; intros [|b r] H; try discriminate; [reflexivity |].
  cbn in *. f_equal. apply IH. lia.
Qed.

Lemma dict_get_set_fields_other (kvs : list (string * string)) (d : pydict) (k : string) :
  ~ In k (map fst kvs) ->
  dict_get (set_fields d kvs) (Some k) = dict_get d (Some k).
Proof.
  revert d. induction kvs as [|[k0 v0] r IH]; intros d Hk; [reflexivity |].
  unfold set_fields in *. cbn [fold_left fst snd].
  rewrite IH by (cbn in Hk; tauto). rewrite dict_get_set.
  destruct (pykey_eqb_spec (Some k0) (Some k)) as [E | _]; [| reflexivity].
  inversion E; subst. cbn in Hk. tauto.
Qed.

Lemma dict_get_set_restval_other (ks : list string) (d : pydict) (k : string) :
  ~ In k ks ->
  dict_get (set_restval d ks) (Some k) = dict_get d (Some k).
Proof.
  revert d. induction ks as [|k0 r IH]; intros d Hk; [reflexivity |].
  unfold set_restval in *. cbn [fold_left].
  rewrite IH by (cbn in Hk; tauto). rewrite dict_get_set.
  destruct (pykey_eqb_spec (Some k0) (Some k)) as [E | _]; [| reflexivity].
  inversion E; subst. cbn in Hk. tauto.
Qed.

Lemma in_map_fst_combine {A B : Type} (l : list A) (r : list B) (a : A) :
  In a (map fst (combine l r)) -> In a l.
Proof.
  rewrite map_fst_combine_firstn. revert l.
  induction (List.length r) as [|n IH]; intros [|x l]; cbn; try tauto.
  intros [-> | H]; [now left | right; now apply IH].
Qed.

Lemma in_skipn {A : Type} (n : nat) (l : list A) (a : A) : In a (skipn n l) -> In a l.
Proof.
  revert l. induction n as [|n IH]; intros [|x l]; cbn; try tauto.
  intros H. right. now apply IH.
Qed.

(** X7.  When the header repeats a name, the value of the last column of
    that name is the one a row keeps under it: the fields of the columns of
    the same name before it are not in the output.  That holds for rows of
    any length that reach the column. *)
Theorem last_column_of_a_name_wins
    (f1 f2 r1 r2 : list string) (k v : string) :
  List.length r1 = List.length f1 ->
  ~ In k f2 ->
  dict_get (DictReader_row (f1 ++ k :: f2) (r1 ++ v :: r2)) (Some k) = Some (PyStr v).
Proof.
  intros Hlen Hlast.
  assert (Hzip : dict_get (set_fields [] (combine (f1 ++ k :: f2) (r1 ++ v :: r2))) (Some k)
                 = Some (PyStr v)).
  { rewrite combine_app by exact Hlen. cbn [combine].
    unfold set_fields. rewrite fold_left_app. cbn [fold_left fst snd].
    change (fold_left _ (combine f2 r2) ?d) with (set_fields d (combine f2 r2)).
    rewrite dict_get_set_fields_other
      by (intros H; apply Hlast; exact (in_map_fst_combine _ _ _ H)).
    rewrite dict_get_set.
    destruct (pykey_eqb_spec (Some k) (Some k)); congruence. }
  rewrite DictReader_row_eq. cbv zeta.
  destruct (_ <? _)%nat.
  - rewrite dict_get_set. cbn [pykey_eqb]. exact Hzip.
  - destruct (Nat.ltb_spec (List.length (r1 ++ v :: r2)) (List.length (f1 ++ k :: f2)));
      [| exact Hzip].
    rewrite dict_get_set_restval_other; [exact Hzip |].
    intros Hin. apply Hlast.
    rewrite length_app, Hlen in Hin. cbn [List.length] in Hin.
    rewrite skipn_app, skipn_all2 in Hin by lia.
    replace (List.length f1 + S (List.length r2) - List.length f1)
      with (S (List.length r2)) in Hin by lia.
    cbn [app skipn] in Hin. exact (in_skipn _ _ _ Hin).
Qed.

Lemma last_column_of_a_name_wins_witness :
  dict_get (DictReader_row (["a"] ++ "a" :: []) (["1"] ++ "2" :: [])) (Some "a")
  = Some (PyStr "2").
Proof.
  apply last_column_of_a_name_wins; [reflexivity | intros []].
Defined.

(** ** A blank first line *)

(** X8.  When the file starts with an empty line, the [DictReader] takes
    that line as the header: there are no field names, and every row that
    is not blank becomes a dictionary with the one key [None], under which
    all its fields are kept as a list.  A failure of the reader further on
    is raised as it is. *)
Theorem blank_first_line_is_the_header (rest : list byte) :
  json_data ("010"%byte :: rest) =
  match csv_reader (infile_lines rest) with
  | (rows, None) => Ok (map (fun row => [(None, PyList row)]) (filter not_blank rows))
  | (_, Some e) => Raise e
  end.
Proof.
  unfold json_data. rewrite infile_lines_LF, csv_reader_blank.
  destruct (csv_reader (infile_lines rest)) as [rows [e|]]; cbn [DictReader fst snd];
    [reflexivity |].
  f_equal. apply map_ext_in. intros row Hrow.
  apply filter_In in Hrow. destruct Hrow as [_ Hrow].
  destruct row as [|x r]; [discriminate | reflexivity].
Qed.

(** ** A table: plain lines, distinct names, rows as long as the header *)

(** X9.  For a table (every line plain, no name twice in the header, as
    many fields in each data line as in the header) the list written as
    JSON has one object for each data line, in the order of the lines, and
    each object maps the names of the header, in the order of the columns,
    to the fields of the line between its tabs. *)
Theorem table_to_json (content : list byte) (header : string) (lines : list string) :
  infile_lines content = header :: lines ->
  forallb plain_line (header :: lines) = true ->
  NoDup (Str.split TAB (chomp header)) ->
  (forall l, In l lines ->
             List.length (Str.split TAB (chomp l))
             = List.length (Str.split TAB (chomp header))) ->
  json_data content
  = Ok (map (fun l => zip_row (Str.split TAB (chomp header)) (Str.split TAB (chomp l)))
            lines).
Proof.
  intros Hlines Hplain Hnd Hlen.
  rewrite (json_data_rows content (Str.split TAB (chomp header))
             (map (fun l => Str.split TAB (chomp l)) lines)).
  - rewrite filter_not_blank_split, map_map. f_equal.
    apply map_ext_in. intros l Hl.
    apply DictReader_row_exact; [now apply Hlen | exact Hnd].
  - rewrite Hlines. exact (csv_reader_plain (header :: lines) Hplain).
Qed.

Lemma table_to_json_witness :
  json_data scenario_input
  = Ok (map (fun l => zip_row (Str.split TAB (chomp ("name" ++ tab ++ "age" ++ nl)))
                              (Str.split TAB (chomp l)))
            ["Alice" ++ tab ++ "30" ++ nl; "Bob" ++ tab ++ "25" ++ nl]).
Proof.
  apply table_to_json.
  - reflexivity.
  - reflexivity.
  - repeat constructor; cbn; intuition discriminate.
  - intros l [<- | [<- | []]]; reflexivity.
Defined.

(** ** The records of the csv writer *)

Lemma needs_quotes_String (c : ascii) (r : string) :
  needs_quotes (String c r)
  = (Ascii.eqb c COMMA || Ascii.eqb c DQUOTE || Str.mem c lineterminator)
    || needs_quotes r.
Proof.
  unfold needs_quotes, lineterminator. cbn [Str.mem].
  destruct (Ascii.eqb_spec c COMMA), (Ascii.eqb_spec c DQUOTE),
    (Ascii.eqb_spec c CR), (Ascii.eqb_spec c LF),
    (Ascii.eqb_spec CR c), (Ascii.eqb_spec LF c);
    try congruence; cbn;
    destruct (Str.mem COMMA r), (Str.mem DQUOTE r), (Str.mem CR r), (Str.mem LF r);
    reflexivity.
Qed.

Lemma join_append_data_eq (f : string) (q : bool) :
  join_append_data f q = (replace DQUOTE (dq ++ dq) f, q || needs_quotes f).
Proof.
  revert q. induction f as [|c r IH]; intros q.
  - cbn. now rewrite orb_false_r.
  - cbn [join_append_data replace]. rewrite IH, needs_quotes_String.
    rewrite <- !orb_assoc.
    destruct (Ascii.eqb_spec c DQUOTE) as [-> | _]; reflexivity.
Qed.

Lemma replace_absent (c : ascii) (by_ x : string) :
  Str.mem c x = false -> replace c by_ x = x.
Proof.
  induction x as [|a r IH]; [reflexivity |]. cbn [Str.mem replace].
  intros H. apply orb_false_iff in H. destruct H as [Ha Hr].
  rewrite Ha, (IH Hr). reflexivity.
Qed.

Lemma join_append_eq (rec : string) (n : nat) (f : string) :
  join_append rec n f
  = rec ++ (if (0 <? n)%nat then "," else EmptyString) ++ quote_field f.
Proof.
  unfold join_append, quote_field. rewrite join_append_data_eq. cbn [orb].
  destruct (needs_quotes f) eqn:Hq; [reflexivity |].
  rewrite replace_absent; [reflexivity |].
  unfold needs_quotes in Hq. now destruct (Str.mem COMMA f), (Str.mem DQUOTE f).
Qed.

Lemma join_row_later (row : list string) (rec : string) (n : nat) :
  join_row rec (S n) row
  = (rec ++ String.concat EmptyString (map (fun f => "," ++ quote_field f) row),
     S n + List.length row).
Proof.
  revert rec n. induction row as [|f fs IH]; intros rec n.
  - cbn. now rewrite StrFacts.append_nil_r, Nat.add_0_r.
  - cbn [join_row map List.length]. rewrite IH, join_append_eq.
    rewrite StrFacts.concat_nil_cons.
    change (0 <? S n)%nat with true. cbv iota.
    rewrite !StrFacts.append_assoc. f_equal. lia.
Qed.

Lemma concat_comma (f : string) (fs : list string) :
  String.concat "," (f :: fs)
  = f ++ String.concat EmptyString (map (fun g => "," ++ g) fs).
Proof.
  revert f. induction fs as [|g r IH]; intros f.
  - cbn. now rewrite StrFacts.append_nil_r.
  - change (String.concat "," (f :: g :: r)) with (f ++ "," ++ String.concat "," (g :: r)).
    rewrite IH. cbn [map]. rewrite StrFacts.concat_nil_cons.
    now rewrite StrFacts.append_assoc.
Qed.

Lemma join_row_eq (row : list string) :
  join_row EmptyString 0 row
  = (String.concat "," (map quote_field row), List.length row).
Proof.
  destruct row as [|f fs]; [reflexivity |].
  cbn [join_row map]. rewrite join_row_later, join_append_eq, concat_comma.
  rewrite map_map. reflexivity.
Qed.

Lemma quote_field_empty (f : string) :
  Str.is_empty (quote_field f) = Str.is_empty f.
Proof.
  unfold quote_field. destruct f as [|c r]; [reflexivity |].
  destruct (needs_quotes (String c r)); reflexivity.
Qed.

Lemma is_empty_append (x y : string) :
  Str.is_empty (x ++ y) = Str.is_empty x && Str.is_empty y.
Proof. destruct x; reflexivity. Qed.

(** The record [writerow] writes for a row. *)
Lemma writerow_eq (row : list string) :
  writerow row = csv_record row ++ lineterminator.
Proof.
  unfold writerow. rewrite join_row_eq. f_equal.
  destruct row as [|f [|g r]].
  - reflexivity.
  - cbn [map List.length]. change (String.concat "," [quote_field f]) with (quote_field f).
    change (0 <? 1)%nat with true. cbn [andb]. rewrite quote_field_empty.
    destruct f; reflexivity.
  - assert (H : Str.is_empty (String.concat "," (map quote_field (f :: g :: r))) = false).
    { cbn [map].
      change (String.concat "," (quote_field f :: quote_field g :: map quote_field r))
        with (quote_field f ++ "," ++ String.concat "," (quote_field g :: map quote_field r)).
      rewrite is_empty_append. apply andb_false_r. }
    rewrite H, andb_false_r. destruct f; reflexivity.
Qed.

(** X10.  The text of the csv output, record by record: each row the
    reader yields is written as its fields with commas between them and a
    carriage return and line feed after them; a field that holds a comma, a
    double quote, a carriage return or a line feed is written between
    double quotes, with every double quote of its own doubled, and any
    other field as it is; a row of one empty field is written as a pair of
    quotes. *)
Theorem csv_output_record_by_record (content : list byte) :
  csv_text content
  = (String.concat EmptyString
       (map (fun row => csv_record row ++ lineterminator)
            (fst (csv_reader (infile_lines content)))),
     snd (csv_reader (infile_lines content))).
Proof.
  unfold csv_text. destruct (csv_reader (infile_lines content)) as [rows e].
  cbn [fst snd]. f_equal. f_equal. apply map_ext. exact writerow_eq.
Qed.

Lemma split_mem (c sep : ascii) (x : string) :
  Str.mem c x = false -> Forall (fun f => Str.mem c f = false) (Str.split sep x).
Proof.
  induction x as [|a r IH]; cbn [Str.mem Str.split]; intros H.
  - now constructor.
  - apply orb_false_iff in H. destruct H as [Ha Hr]. specialize (IH Hr).
    destruct (Ascii.eqb a sep); [now constructor |].
    destruct (Str.split sep r) as [|f fs].
    + constructor; [cbn; now rewrite Ha | constructor].
    + inversion IH; subst. constructor; [cbn; now rewrite Ha | assumption].
Qed.

Lemma chomp_mem (c : ascii) (l : string) :
  Str.mem c l = false -> Str.mem c (chomp l) = false.
Proof.
  induction l as [|a r IH]; cbn [Str.mem chomp]; intros H; [reflexivity |].
  apply orb_false_iff in H. destruct H as [Ha Hr].
  destruct (Ascii.eqb a LF); [reflexivity |]. cbn. now rewrite Ha, IH.
Qed.

(** Joining with commas what was split at the tabs. *)
Lemma concat_split_replace (x : string) :
  String.concat "," (Str.split TAB x) = replace TAB "," x.
Proof.
  induction x as [|a r IH]; [reflexivity |]. cbn [Str.split replace].
  destruct (split_cons TAB r) as [f [fs E]]. rewrite E in *.
  destruct (Ascii.eqb a TAB).
  - change (String.concat "," (EmptyString :: f :: fs))
      with ("," ++ String.concat "," (f :: fs)).
    now rewrite IH.
  - rewrite <- IH. now destruct fs.
Qed.

(** The record of a plain line without commas and quotes. *)
Lemma csv_record_clean (body : string) :
  Str.is_empty body = false ->
  Str.mem COMMA body = false -> Str.mem DQUOTE body = false ->
  Str.mem CR body = false -> Str.mem LF body = false ->
  csv_record (Str.split TAB body) = replace TAB "," body.
Proof.
  intros Hne Hcomma Hquote Hcr Hlf.
  assert (Hid : map quote_field (Str.split TAB body) = Str.split TAB body).
  { pose proof (split_mem COMMA TAB body Hcomma) as H1.
    pose proof (split_mem DQUOTE TAB body Hquote) as H2.
    pose proof (split_mem CR TAB body Hcr) as H3.
    pose proof (split_mem LF TAB body Hlf) as H4.
    induction (Str.split TAB body) as [|f fs IH]; [reflexivity |].
    inversion H1; inversion H2; inversion H3; inversion H4; subst.
    cbn [map]. rewrite IH by assumption. f_equal.
    unfold quote_field, needs_quotes.
    now replace (Str.mem COMMA f) with false; replace (Str.mem DQUOTE f) with false;
      replace (Str.mem CR f) with false; replace (Str.mem LF f) with false. }
  rewrite <- concat_split_replace.
  destruct body as [|a r]; [discriminate |]. cbn [Str.split] in *.
  destruct (split_cons TAB r) as [f [fs E]]. rewrite E in *.
  destruct (Ascii.eqb a TAB).
  - change (csv_record (EmptyString :: f :: fs))
      with (String.concat "," (map quote_field (EmptyString :: f :: fs))).
    now rewrite Hid.
  - change (csv_record (String a f :: fs))
      with (String.concat "," (map quote_field (String a f :: fs))).
    now rewrite Hid.
Qed.

(** X11.  Tabs become commas: when every line of the input is plain and has
    no comma and no double quote, the csv output is the input line by line,
    each line without its newline, with every tab replaced by a comma, and
    ended by a carriage return and a line feed.  Nothing else is changed,
    added or quoted. *)
Theorem tabs_become_commas (content : list byte) :
  forallb plain_line (infile_lines content) = true ->
  forallb clean_line (infile_lines content) = true ->
  csv_text content
  = (String.concat EmptyString
       (map (fun l => replace TAB "," (chomp l) ++ lineterminator)
            (infile_lines content)),
     None).
Proof.
  intros Hplain Hclean. unfold csv_text.
  rewrite (csv_reader_plain _ Hplain). f_equal. f_equal.
  rewrite map_map. apply map_ext_in. intros l Hl.
  rewrite writerow_eq. f_equal.
  rewrite forallb_forall in Hplain, Hclean.
  specialize (Hplain l Hl). specialize (Hclean l Hl).
  unfold plain_line in Hplain. unfold clean_line in Hclean.
  apply andb_true_iff in Hplain. destruct Hplain as [Hplain _].
  apply andb_true_iff in Hplain. destruct Hplain as [Hshape Hne].
  apply andb_true_iff in Hclean. destruct Hclean as [Hcomma Hquote].
  apply negb_true_iff in Hne, Hcomma, Hquote.
  destruct (shaped_chomp l Hshape) as (tail & _ & _ & Hlf & Hcr).
  apply csv_record_clean; auto using chomp_mem.
Qed.

Lemma tabs_become_commas_witness :
  csv_text scenario_input
  = (String.concat EmptyString
       (map (fun l => replace TAB "," (chomp l) ++ lineterminator)
            (infile_lines scenario_input)),
     None).
Proof. apply tabs_become_commas; reflexivity. Defined.

(** ** Line ends *)

Lemma ascii_of_byte_eqb (b : byte) (x : byte) :
  Ascii.eqb (ascii_of_byte b) (ascii_of_byte x) = Byte.eqb b x.
Proof.
  destruct (Byte.eqb b x) eqn:E.
  - apply Byte.byte_dec_bl in E. subst. apply Ascii.eqb_refl.
  - apply Ascii.eqb_neq. intros H.
    assert (Hb : b = x)
      by (rewrite <- (byte_of_ascii_of_byte b), <- (byte_of_ascii_of_byte x); now f_equal).
    apply Byte.byte_dec_lb in Hb. congruence.
Qed.

Lemma not_CR_byte (b : byte) (r : list byte) :
  ~ In "013"%byte (b :: r) ->
  Ascii.eqb (ascii_of_byte b) CR = false /\ ~ In "013"%byte r.
Proof.
  intros H. split; [| intros Hr; apply H; now right].
  change CR with (ascii_of_byte "013"). rewrite ascii_of_byte_eqb.
  destruct (Byte.eqb b "013") eqn:E; [| reflexivity].
  apply Byte.byte_dec_bl in E. subst. exfalso. apply H. now left.
Qed.

Lemma decode_latin1_id (content : list byte) :
  ~ In "013"%byte content ->
  universal_newlines (decode_latin1 content) = decode_latin1 content.
Proof.
  induction content as [|b r IH]; intros H; [reflexivity |].
  destruct (not_CR_byte b r H) as [Hb Hr].
  cbn [decode_latin1]. rewrite universal_newlines_cons by exact Hb.
  now rewrite IH.
Qed.

Lemma decode_latin1_to_crlf (content : list byte) :
  ~ In "013"%byte content ->
  universal_newlines (decode_latin1 (to_crlf content)) = decode_latin1 content.
Proof.
  induction content as [|b r IH]; intros H; [reflexivity |].
  destruct (not_CR_byte b r H) as [Hb Hr].
  unfold to_crlf in *. cbn [flat_map].
  destruct (Byte.eqb b "010") eqn:E.
  - apply Byte.byte_dec_bl in E. subst b.
    cbn [app decode_latin1].
    change (ascii_of_byte "013") with CR. change (ascii_of_byte "010") with LF.
    rewrite universal_newlines_CR, Ascii.eqb_refl. now rewrite IH.
  - cbn [app decode_latin1]. rewrite universal_newlines_cons by exact Hb.
    now rewrite IH.
Qed.

Lemma decode_latin1_to_cr (content : list byte) :
  ~ In "013"%byte content ->
  universal_newlines (decode_latin1 (to_cr content)) = decode_latin1 content.
Proof.
  induction content as [|b r IH]; intros H; [reflexivity |].
  destruct (not_CR_byte b r H) as [Hb Hr]. specialize (IH Hr).
  unfold to_cr in *. cbn [map decode_latin1].
  destruct (Byte.eqb b "010") eqn:E.
  - apply Byte.byte_dec_bl in E. subst b.
    change (ascii_of_byte "013") with CR. change (ascii_of_byte "010") with LF.
    destruct r as [|b' r']; [reflexivity |].
    cbn [map decode_latin1] in *. rewrite universal_newlines_CR.
    replace (Ascii.eqb (ascii_of_byte (if Byte.eqb b' "010" then "013"%byte else b')) LF)
      with false; [now rewrite IH |].
    symmetry. change LF with (ascii_of_byte "010"). rewrite ascii_of_byte_eqb.
    destruct (Byte.eqb b' "010") eqn:E'; [reflexivity | exact E'].
  - rewrite universal_newlines_cons by exact Hb. now rewrite IH.
Qed.

(** X12.  The line ends of the input do not matter: a file without carriage
    returns and the same file with DOS line ends (a carriage return before
    every line feed) or old Mac line ends (a carriage return for every line
    feed) are read as the same lines, and so give the same csv text, the
    same JSON data and the same XML tree, with the same exception if
    any. *)
Theorem line_ends_do_not_matter (content content' : list byte) :
  ~ In "013"%byte content ->
  content' = to_crlf content \/ content' = to_cr content ->
  infile_lines content' = infile_lines content /\
  csv_text content' = csv_text content /\
  json_data content' = json_data content /\
  xml_root content' = xml_root content.
Proof.
  intros Hcr Hcontent.
  assert (Hlines : infile_lines content' = infile_lines content).
  { unfold infile_lines. rewrite (decode_latin1_id content Hcr).
    destruct Hcontent as [-> | ->];
      [now rewrite decode_latin1_to_crlf | now rewrite decode_latin1_to_cr]. }
  unfold csv_text, xml_root, json_data. now rewrite Hlines.
Qed.

Lemma line_ends_do_not_matter_witness :
  infile_lines (to_crlf scenario_input) = infile_lines scenario_input /\
  csv_text (to_crlf scenario_input) = csv_text scenario_input /\
  json_data (to_crlf scenario_input) = json_data scenario_input /\
  xml_root (to_crlf scenario_input) = xml_root scenario_input.
Proof.
  apply line_ends_do_not_matter.
  - vm_compute. intuition discriminate.
  - left. reflexivity.
Defined.

(** ** The characters of the JSON output *)

Lemma all_chars_append (p : ascii -> bool) (x y : string) :
  all_chars p (x ++ y) = all_chars p x && all_chars p y.
Proof.
  induction x as [|c r IH]; [reflexivity |]. cbn [append all_chars].
  now rewrite IH, andb_assoc.
Qed.

Lemma all_chars_concat (p : ascii -> bool) (sep : string) (l : list string) :
  all_chars p sep = true ->
  Forall (fun x => all_chars p x = true) l ->
  all_chars p (String.concat sep l) = true.
Proof.
  intros Hsep. induction 1 as [|x r Hx Hr IH]; [reflexivity |].
  destruct r as [|y r']; [exact Hx |].
  change (String.concat sep (x :: y :: r')) with (x ++ sep ++ String.concat sep (y :: r')).
  now rewrite !all_chars_append, Hx, Hsep, IH.
Qed.

Lemma all_chars_repeat (p : ascii -> bool) (c : ascii) (n : nat) :
  p c = true -> all_chars p (Str.repeat c n) = true.
Proof. intros Hc. induction n as [|k IH]; [reflexivity |]. cbn. now rewrite Hc, IH. Qed.

Lemma escape_ascii_chars (c : ascii) : all_chars json_char (escape_ascii c) = true.
Proof.
  destruct c as [[|] [|] [|] [|] [|] [|] [|] [|]]; vm_compute; reflexivity.
Qed.

Lemma encode_basestring_ascii_chars (s : string) :
  all_chars json_char (encode_basestring_ascii s) = true.
Proof.
  unfold encode_basestring_ascii. rewrite !all_chars_append.
  assert (H : all_chars json_char (escape_string s) = true).
  { induction s as [|c r IH]; [reflexivity |]. cbn [escape_string].
    now rewrite all_chars_append, escape_ascii_chars, IH. }
  now rewrite H.
Qed.

Lemma newline_indent_chars (level : nat) :
  all_chars json_char (newline_indent level) = true.
Proof.
  unfold newline_indent. rewrite all_chars_append.
  now rewrite all_chars_repeat.
Qed.

Lemma _iterencode_list_chars {A : Type} (encode_item : A -> nat -> string)
    (lst : list A) (level : nat) :
  (forall v l, all_chars json_char (encode_item v l) = true) ->
  all_chars json_char (_iterencode_list encode_item lst level) = true.
Proof.
  intros Hitem. destruct lst as [|v r]; [reflexivity |].
  unfold _iterencode_list. rewrite !all_chars_append, !newline_indent_chars.
  rewrite all_chars_concat.
  - reflexivity.
  - now rewrite all_chars_append, newline_indent_chars.
  - apply Forall_map, Forall_forall. intros x _. apply Hitem.
Qed.

Lemma encode_value_chars (v : pyval) (level : nat) :
  all_chars json_char (encode_value v level) = true.
Proof.
  destruct v as [x | | l]; cbn [encode_value].
  - apply encode_basestring_ascii_chars.
  - reflexivity.
  - apply _iterencode_list_chars. intros x _. apply encode_basestring_ascii_chars.
Qed.

Lemma _iterencode_dict_chars (dct : pydict) (level : nat) :
  all_chars json_char (_iterencode_dict dct level) = true.
Proof.
  destruct dct as [|kv r]; [reflexivity |].
  unfold _iterencode_dict. rewrite !all_chars_append, !newline_indent_chars.
  rewrite all_chars_concat.
  - reflexivity.
  - now rewrite all_chars_append, newline_indent_chars.
  - apply Forall_map, Forall_forall. intros [k v] _. cbn [fst snd].
    rewrite !all_chars_append, encode_value_chars.
    destruct k; cbn [encode_key]; now rewrite encode_basestring_ascii_chars.
Qed.

Lemma utf8_encode_ascii (s : string) :
  all_chars json_char s = true -> utf8_encode s = list_byte_of_string s.
Proof.
  induction s as [|c r IH]; [reflexivity |]. cbn [all_chars utf8_encode].
  intros H. apply andb_true_iff in H. destruct H as [Hc Hr].
  rewrite (IH Hr). unfold utf8_encode_char.
  assert (Hlow : (N_of_ascii c <? 128)%N = true).
  { apply N.ltb_lt. unfold json_char in Hc. apply orb_true_iff in Hc.
    destruct Hc as [Hc | Hc].
    - apply Ascii.eqb_eq in Hc. subst c. reflexivity.
    - apply andb_true_iff in Hc. destruct Hc as [_ Hc]. apply N.leb_le in Hc. lia. }
  rewrite Hlow. reflexivity.
Qed.

(** X13.  The JSON output is plain ASCII, whatever bytes the input holds:
    every character of the text is printable ASCII (space to tilde) or a
    line feed, since [json.dump] escapes everything else, and so the file
    has one byte for each character of the text. *)
Theorem json_output_is_ascii (data : list pydict) :
  all_chars json_char (json_dump data) = true /\
  utf8_encode (json_dump data) = list_byte_of_string (json_dump data).
Proof.
  assert (H : all_chars json_char (json_dump data) = true)
    by (apply _iterencode_list_chars; intros; apply _iterencode_dict_chars).
  split; [exact H | exact (utf8_encode_ascii _ H)].
Qed.

(** ** A field between quotes *)

(** The characters of a quoted field up to its closing quote. *)
Lemma quoted_chars (t : string) :
  forall (fs : list string) (cur rest : string),
    Str.mem DQUOTE t = false ->
    (Str.len (cur ++ t) <= field_limit)%N ->
    parse_process_line (mkReader IN_QUOTED_FIELD fs cur) (t ++ rest)
    = parse_process_line (mkReader IN_QUOTED_FIELD fs (cur ++ t)) rest.
Proof.
  induction t as [|c r IH]; intros fs cur rest Hq Hlen.
  - now rewrite StrFacts.append_nil_r.
  - cbn [Str.mem] in Hq. apply orb_false_iff in Hq. destruct Hq as [Hc Hr].
    change (String c r ++ rest) with (String c (r ++ rest)).
    cbn [parse_process_line parse_process_char state]. rewrite Hc.
    replace (cur ++ String c r) with ((cur ++ String c EmptyString) ++ r) in *
      by now rewrite StrFacts.append_assoc.
    destruct (parse_add_char_spec (mkReader IN_QUOTED_FIELD fs cur) c)
      as [[Hfull _] | [_ ->]].
    + cbn [field] in Hfull. rewrite len_app, StrFacts.len_snoc in Hlen. lia.
    + cbn [bind state fields field]. now apply IH.
Qed.




(** ** The text of the XML output *)

Lemma writable_tags_texts (e : Element) :
  writable e = forallb plain_tag (tags e) && forallb writable_text (texts e).
Proof.
  induction e as [t x cs IH] using Element_ind'.
  rewrite writable_mk. cbn [tags texts forallb].
  assert (H : forallb writable cs
              = forallb plain_tag (flat_map tags cs)
                && forallb writable_text (flat_map texts cs)).
  { induction IH as [|c r Hc _ IHr]; [reflexivity |].
    cbn [forallb flat_map]. rewrite !forallb_app, Hc, IHr.
    destruct (forallb plain_tag (tags c)), (forallb writable_text (texts c)),
      (forallb plain_tag (flat_map tags r)); reflexivity. }
  rewrite H.
  destruct (plain_tag t), (writable_text x), (forallb plain_tag (flat_map tags cs));
    reflexivity.
Qed.

Lemma assoc_get_snoc (l : list (string * string)) (k v x : string) :
  assoc_get (l ++ [(k, v)])%list x =
  match assoc_get l x with
  | Some q => Some q
  | None => if String.eqb k x then Some v else None
  end.
Proof.
  induction l as [|[k0 v0] r IH]; [reflexivity |].
  cbn [app assoc_get]. destruct (String.eqb k0 x); [reflexivity | exact IH].
Qed.

(** One tag of the loop of [_namespaces], for a plain tag. *)
Lemma _namespaces_tag (tb : ns_tables) (t : pykey) :
  plain_tag t = true ->
  plain_tables tb ->
  exists tb1,
    match t with
    | None => Ok tb
    | Some name =>
        match assoc_get (qnames tb) name with
        | Some _ => Ok tb
        | None => add_qname tb name
        end
    end = Ok tb1 /\
    plain_tables tb1 /\
    (forall name, assoc_get (qnames tb) name = Some name ->
                  assoc_get (qnames tb1) name = Some name) /\
    (forall name, t = Some name -> assoc_get (qnames tb1) name = Some name).
Proof.
  intros Ht [Hns Hq]. destruct t as [name |].
  - destruct (assoc_get (qnames tb) name) as [q |] eqn:E.
    + exists tb. repeat split; auto.
      intros n Hn. injection Hn as <-. now rewrite E, (Hq name q E).
    + unfold add_qname. cbn [plain_tag] in Ht. apply negb_true_iff in Ht. rewrite Ht.
      eexists. split; [reflexivity |]. unfold plain_tables. cbn [qnames namespaces].
      split; [split |]; [| | split].
      * exact Hns.
      * intros n q. rewrite assoc_get_snoc.
        destruct (assoc_get (qnames tb) n) as [q0 |] eqn:En.
        -- intros Hn. injection Hn as <-. now apply Hq.
        -- destruct (String.eqb_spec name n); [| discriminate].
           intros Hn. injection Hn as <-. assumption.
      * intros n Hn. now rewrite assoc_get_snoc, Hn.
      * intros n Hn. injection Hn as <-.
        now rewrite assoc_get_snoc, E, String.eqb_refl.
  - exists tb. repeat split; auto. discriminate.
Qed.

(** [_namespaces] on a tree of plain tags: every tag is in the table and
    stands for itself. *)
Lemma _namespaces_plain (e : Element) :
  forall tb,
    forallb plain_tag (tags e) = true ->
    plain_tables tb ->
    exists tb',
      _namespaces tb e = Ok tb' /\
      plain_tables tb' /\
      (forall name, assoc_get (qnames tb) name = Some name ->
                    assoc_get (qnames tb') name = Some name) /\
      (forall name, In (Some name) (tags e) -> assoc_get (qnames tb') name = Some name).
Proof.
  induction e as [t x cs IH] using Element_ind'. intros tb Htags Htb.
  cbn [tags forallb] in Htags. apply andb_true_iff in Htags. destruct Htags as [Ht Hcs].
  rewrite _namespaces_mk.
  destruct (_namespaces_tag tb t Ht Htb) as (tb1 & -> & Htb1 & Hmono1 & Hknown1).
  cbn [bind].
  assert (Hchildren : forall tb1,
             plain_tables tb1 ->
             exists tb',
               fold_left (fun r c => tb0 <- r ;; _namespaces tb0 c) cs (Ok tb1) = Ok tb' /\
               plain_tables tb' /\
               (forall name, assoc_get (qnames tb1) name = Some name ->
                             assoc_get (qnames tb') name = Some name) /\
               (forall name, In (Some name) (flat_map tags cs) ->
                             assoc_get (qnames tb') name = Some name)).
  { clear tb tb1 Htb Htb1 Hmono1 Hknown1 Ht.
    induction IH as [|c r IHc _ IHr]; intros tb1 Htb1.
    - exists tb1. split; [reflexivity |]. split; [exact Htb1 |].
      split; [auto | intros name []].
    - cbn [flat_map] in Hcs. rewrite forallb_app in Hcs.
      apply andb_true_iff in Hcs. destruct Hcs as [Hc Hr].
      destruct (IHc tb1 Hc Htb1) as (tb2 & E2 & Htb2 & Hmono2 & Hknown2).
      destruct (IHr Hr tb2 Htb2) as (tb3 & E3 & Htb3 & Hmono3 & Hknown3).
      exists tb3. cbn [fold_left bind]. rewrite E2. cbn [bind].
      split; [exact E3 |]. split; [exact Htb3 |]. split; [auto |].
      intros name Hin. cbn [flat_map] in Hin. apply in_app_or in Hin.
      destruct Hin as [Hin | Hin]; auto. }
  destruct (Hchildren tb1 Htb1) as (tb' & E & Htb' & Hmono & Hknown).
  exists tb'. split; [exact E |]. split; [exact Htb' |]. split; [auto |].
  intros name [Hin | Hin]; auto.
Qed.

Lemma write_then_twice (a b : string) (k : written) :
  write_then a (write_then b k) = write_then (a ++ b) k.
Proof. unfold write_then. cbn [fst snd]. now rewrite StrFacts.append_assoc. Qed.

Lemma write_then_nothing (k : written) : write_then EmptyString k = k.
Proof. now destruct k. Qed.

(** [_serialize_xml] with every tag standing for itself. *)
Lemma _serialize_xml_render (e : Element) :
  forall qn k,
    forallb writable_text (texts e) = true ->
    (forall name, In (Some name) (tags e) -> assoc_get qn name = Some name) ->
    _serialize_xml qn [] e k = write_then (render e) k.
Proof.
  induction e as [t x cs IH] using Element_ind'. intros qn k Htexts Hqn.
  cbn [texts forallb] in Htexts. apply andb_true_iff in Htexts.
  destruct Htexts as [Hx Hcs].
  rewrite _serialize_xml_mk. cbv zeta.
  assert (Hchildren : forall k',
             fold_right (fun c k0 => _serialize_xml qn [] c k0) k' cs
             = write_then (String.concat EmptyString (map render cs)) k').
  { intros k'. clear Hx.
    assert (Hqn' : forall name, In (Some name) (flat_map tags cs) ->
                                assoc_get qn name = Some name)
      by (intros name Hin; apply Hqn; now right).
    clear Hqn. induction IH as [|c r IHc _ IHr].
    - cbn. now rewrite write_then_nothing.
    - cbn [flat_map] in Hcs, Hqn'. rewrite forallb_app in Hcs.
      apply andb_true_iff in Hcs. destruct Hcs as [Hc Hr].
      cbn [fold_right map]. rewrite IHr, IHc; auto.
      + now rewrite write_then_twice, StrFacts.concat_nil_cons.
      + intros name Hin. apply Hqn'. apply in_or_app. now left.
      + intros name Hin. apply Hqn'. apply in_or_app. now right. }
  assert (Hbody : forall k',
             (if truthy x then write_text x else fun k0 => k0)
               (fold_right (fun c k0 => _serialize_xml qn [] c k0) k' cs)
             = write_then (match x with
                           | PyStr v => _escape_cdata v
                           | _ => EmptyString
                           end ++ String.concat EmptyString (map render cs)) k').
  { intros k'. rewrite Hchildren.
    destruct x as [v | | [|a l]]; cbn [truthy negb writable_text write_text] in *;
      try discriminate; try reflexivity.
    destruct v as [|c v']; cbn [Str.is_empty negb]; [reflexivity |].
    cbn [write_text]. now rewrite write_then_twice. }
  cbn [render].
  destruct t as [name |]; cbn [lookup_qname]; [| apply Hbody].
  rewrite (Hqn name) by now left.
  change (xmlns_attributes []) with EmptyString. rewrite StrFacts.append_nil_r.
  destruct (truthy x || negb match cs with [] => true | _ => false end).
  - rewrite Hbody, !write_then_twice. f_equal.
    now rewrite !StrFacts.append_assoc.
  - now rewrite write_then_twice, !StrFacts.append_assoc.
Qed.

(** A tree that can be written is written as it is rendered. *)
Lemma ElementTree_write_render (root : Element) :
  writable root = true -> ElementTree_write root = (render root, None).
Proof.
  intros Hw. rewrite writable_tags_texts in Hw. apply andb_true_iff in Hw.
  destruct Hw as [Htags Htexts]. unfold ElementTree_write.
  destruct (_namespaces_plain root {| qnames := []; namespaces := [] |} Htags)
    as (tb & -> & [Hns _] & _ & Hknown).
  { split; [reflexivity | discriminate]. }
  rewrite Hns, (_serialize_xml_render root (qnames tb) _ Htexts Hknown).
  unfold write_then. cbn [fst snd]. now rewrite StrFacts.append_nil_r.
Qed.

Lemma set_restval_nodup (ks : list string) (d : pydict) :
  NoDup (dict_keys d ++ map Some ks)%list ->
  set_restval d ks = (d ++ map (fun k => (Some k, PyNone)) ks)%list.
Proof.
  revert d. induction ks as [|k r IH]; intros d Hnd; cbn [map].
  - now rewrite app_nil_r.
  - unfold set_restval in *. cbn [fold_left].
    assert (Hk : ~ In (Some k) (dict_keys d)).
    { apply NoDup_remove_2 in Hnd. intros Hin. apply Hnd.
      apply in_or_app. now left. }
    rewrite (dict_set_fresh d (Some k) PyNone Hk), IH.
    + now rewrite <- app_assoc.
    + unfold dict_keys in *. rewrite map_app. cbn [map fst].
      rewrite <- app_assoc. exact Hnd.
Qed.

(** The dictionary of a row that is not longer than a header without
    repeated names: the fields under their names, then [None] under the
    names that are left. *)
Lemma DictReader_row_table (fieldnames row : list string) :
  List.length row <= List.length fieldnames ->
  NoDup fieldnames ->
  DictReader_row fieldnames row
  = (zip_row fieldnames row
       ++ map (fun k => (Some k, PyNone)) (skipn (List.length row) fieldnames))%list.
Proof.
  intros Hlen Hnd. rewrite DictReader_row_eq. cbv zeta.
  assert (Hzip : set_fields [] (combine fieldnames row) = zip_row fieldnames row).
  { rewrite set_fields_nodup; [reflexivity |].
    simpl. rewrite <- (map_map fst Some), map_fst_combine_firstn.
    apply NoDup_map_Some. rewrite <- (firstn_skipn (List.length row)) in Hnd.
    exact (NoDup_app_remove_r _ _ Hnd). }
  destruct (Nat.ltb_spec (List.length fieldnames) (List.length row)); [lia |].
  destruct (Nat.ltb_spec (List.length row) (List.length fieldnames)).
  - rewrite Hzip. apply set_restval_nodup.
    unfold dict_keys, zip_row, pykey. rewrite map_map. cbn [fst].
    rewrite <- (map_map fst Some), map_fst_combine_firstn, <- map_app, firstn_skipn.
    now apply NoDup_map_Some.
  - rewrite Hzip, skipn_all2 by lia. cbn [map]. now rewrite app_nil_r.
Qed.

Lemma render_field (name value : string) :
  render (mkElement (Some name) (PyStr value) []) = xml_field name value.
Proof.
  unfold xml_field. cbn [render truthy map String.concat].
  rewrite orb_false_r, StrFacts.append_nil_r.
  destruct (Str.is_empty value); reflexivity.
Qed.

Lemma render_item (fieldnames row : list string) :
  row <> [] ->
  List.length row <= List.length fieldnames ->
  NoDup fieldnames ->
  render (item_of_row (DictReader_row fieldnames row)) = xml_item fieldnames row.
Proof.
  intros Hrow Hlen Hnd. rewrite (DictReader_row_table _ _ Hlen Hnd).
  unfold item_of_row, xml_item. cbn [render truthy orb].
  rewrite !map_app, !map_map. cbn [fst snd].
  rewrite StrFacts.concat_nil_app.
  assert (Hfields :
            map (fun kv => render (mkElement (fst kv) (snd kv) [])) (zip_row fieldnames row)
            = map (fun kv => xml_field (fst kv) (snd kv)) (combine fieldnames row)).
  { unfold zip_row. rewrite map_map. apply map_ext. intros [k v]. apply render_field. }
  rewrite Hfields.
  destruct fieldnames as [|name names]; [destruct row; [congruence | cbn in Hlen; lia] |].
  destruct row as [|f fs]; [congruence |].
  cbn [zip_row combine map app negb]. cbv iota.
  now rewrite !StrFacts.append_assoc.
Qed.

Lemma render_root (fieldnames : list string) (rows : list (list string)) :
  Forall (fun row => row <> [] /\ List.length row <= List.length fieldnames) rows ->
  NoDup fieldnames ->
  render (root_of_rows (map (DictReader_row fieldnames) rows))
  = xml_document fieldnames rows.
Proof.
  intros Hrows Hnd. unfold root_of_rows, xml_document. cbn [render truthy orb].
  rewrite !map_map.
  assert (Hitems : map (fun row => render (item_of_row (DictReader_row fieldnames row))) rows
                   = map (xml_item fieldnames) rows).
  { apply map_ext_in. intros row Hin. rewrite Forall_forall in Hrows.
    destruct (Hrows row Hin) as [Hne Hlen]. now apply render_item. }
  rewrite Hitems. destruct rows as [|row rest]; [reflexivity |].
  cbn [map negb]. cbv iota. reflexivity.
Qed.

Lemma root_writable (fieldnames : list string) (rows : list (list string)) :
  Forall (fun name => Str.starts_with "{" name = false) fieldnames ->
  Forall (fun row => List.length row <= List.length fieldnames) rows ->
  writable (root_of_rows (map (DictReader_row fieldnames) (filter not_blank rows))) = true.
Proof.
  intros Hnames Hrows. unfold root_of_rows. rewrite writable_mk.
  cbn [plain_tag writable_text andb]. rewrite !forallb_over_map.
  apply forallb_forall. intros row Hin. apply filter_In in Hin.
  rewrite Forall_forall in Hrows. apply item_writable; [exact Hnames |].
  apply Hrows, Hin.
Qed.

(** X15.  The text of the XML output for a table.  When the header has no
    name twice and no name that starts with an opening brace, and no row
    has more fields than the header, [-x] writes, without an XML
    declaration and without any white space between the elements, a [root]
    element with one [item] for each row that is not blank, in the order of
    the rows; an item holds one element for each column, in the order of
    the columns, named after the column, with the field as its text, the
    characters [&], [<] and [>] escaped; an empty field and a column the
    row has no field for are written in the short form.  An input without
    data rows gives the short form of the root. *)
Theorem xml_text_of_a_table
    (content : list byte) (fieldnames : list string) (rows : list (list string))
    (input_file output_file : string) (w : World) :
  files w input_file = Some content ->
  csv_reader (infile_lines content) = (fieldnames :: rows, None) ->
  NoDup fieldnames ->
  Forall (fun name => Str.starts_with "{" name = false) fieldnames ->
  Forall (fun row => List.length row <= List.length fieldnames) rows ->
  convert_to_xml input_file output_file w
  = (None, write_file (write_file w output_file []) output_file
                      (utf8_encode (xml_document fieldnames (filter not_blank rows)))).
Proof.
  intros Hf Hread Hnd Hnames Hrows.
  rewrite (convert_to_xml_ok _ _ _ _ _ Hf (xml_root_rows _ _ _ Hread)).
  rewrite (ElementTree_write_render _ (root_writable _ _ Hnames Hrows)).
  cbn [fst snd]. rewrite render_root; [reflexivity | | exact Hnd].
  apply Forall_forall. intros row Hin. apply filter_In in Hin.
  destruct Hin as [Hin Hne]. rewrite Forall_forall in Hrows.
  split; [| now apply Hrows]. intros ->. discriminate.
Qed.

Lemma xml_text_of_a_table_witness :
  convert_to_xml "in.tsv" "output.xml" (world_with short_row_input)
  = (None, write_file (write_file (world_with short_row_input) "output.xml" [])
                      "output.xml"
                      (utf8_encode (xml_document ["a"; "b"] (filter not_blank [["1"]])))).
Proof.
  apply (xml_text_of_a_table short_row_input ["a"; "b"] [["1"]]).
  - reflexivity.
  - reflexivity.
  - repeat constructor; cbn; intuition discriminate.
  - repeat constructor.
  - repeat constructor.
Defined.

(** ** Rows the XML writer cannot write *)



Lemma tags_item (d : pydict) : tags (item_of_row d) = Some "item" :: dict_keys d.
Proof.
  unfold item_of_row, dict_keys. cbn [tags]. f_equal.
  induction d as [|[k v] r IH]; [reflexivity |]. cbn [map flat_map tags app fst]. now f_equal.
Qed.


Lemma in_tags_root (data : list pydict) (d : pydict) (t : pykey) :
  In d data -> In t (dict_keys d) -> In t (tags (root_of_rows data)).
Proof.
  intros Hd Ht. unfold root_of_rows. cbn [tags]. right.
  apply in_flat_map. exists (item_of_row d). split; [now apply in_map |].
  rewrite tags_item. now right.
Qed.





(** ** A field name that opens a namespace *)

Lemma substring_all (s : string) : String.substring 0 (String.length s) s = s.
Proof. induction s as [|c r IH]; [reflexivity |]. cbn. now rewrite IH. Qed.

Lemma rsplit_brace_mem (x : string) :
  rsplit_brace x <> None -> Str.mem "}" x = true.
Proof.
  induction x as [|a r IH]; cbn [rsplit_brace Str.mem]; [congruence |].
  destruct (rsplit_brace r) as [[uri local] |].
  - intros _. rewrite IH by discriminate. apply orb_true_r.
  - destruct (Ascii.eqb a "}"); [reflexivity | congruence].
Qed.

Lemma mem_rsplit_brace (x : string) :
  Str.mem "}" x = true -> rsplit_brace x <> None.
Proof.
  induction x as [|a r IH]; cbn [rsplit_brace Str.mem]; [discriminate |].
  destruct (rsplit_brace r) as [[uri local] |]; [discriminate |].
  destruct (Ascii.eqb a "}"); [discriminate |]. cbn [orb]. exact IH.
Qed.

(** [add_qname] on a name that is not in the table yet: it raises
    [ValueError] for a name that opens a namespace and does not close it,
    and only for such a name. *)
Lemma add_qname_result (tb : ns_tables) (name : string) :
  no_open_brace tb ->
  match add_qname tb name with
  | Ok tb' => no_open_brace tb' /\ open_brace_name name = false
  | Raise e => e = ValueError /\ open_brace_name name = true
  end.
Proof.
  intros Htb. unfold add_qname, open_brace_name.
  assert (Hmore : forall written_as nss,
             Str.starts_with "{" name && negb (Str.mem "}" name) = false ->
             no_open_brace {| qnames := (qnames tb ++ [(name, written_as)])%list;
                              namespaces := nss |}).
  { intros written_as nss Hname x. cbn [qnames]. rewrite assoc_get_snoc.
    destruct (assoc_get (qnames tb) x) eqn:E.
    - intros _. apply Htb. congruence.
    - destruct (String.eqb_spec name x) as [<- | _]; [| congruence].
      intros _. exact Hname. }
  destruct (Str.starts_with "{" name) eqn:Hs.
  - destruct name as [|c r]; [discriminate |]. cbn [Str.starts_with] in Hs.
    apply Ascii.eqb_eq in Hs. subst c.
    cbn [String.length Nat.sub String.substring].
    rewrite Nat.sub_0_r, substring_all.
    cbn [andb Str.mem]. change (Ascii.eqb "{" "}") with false. cbn [orb].
    destruct (rsplit_brace r) as [[uri local] |] eqn:E.
    + assert (Hr : Str.mem "}" r = true) by (apply rsplit_brace_mem; congruence).
      rewrite Hr. cbn [negb].
      destruct (assoc_get (namespaces tb) uri); cbv beta iota zeta;
        (split; [| reflexivity]); apply Hmore; cbn; now rewrite Hr.
    + destruct (Str.mem "}" r) eqn:Hr; [| now split].
      apply mem_rsplit_brace in Hr. congruence.
  - cbn [andb]. split; [| reflexivity]. apply Hmore. reflexivity.
Qed.

Lemma _namespaces_after_raise (cs : list Element) (e : exception) :
  fold_left (fun r c => tb0 <- r ;; _namespaces tb0 c) cs (Raise e) = Raise e.
Proof. induction cs as [|c r IH]; [reflexivity | exact IH]. Qed.

(** [_namespaces] raises nothing but [ValueError], and it raises it when
    the tree has a tag that opens a namespace and does not close it. *)
Lemma _namespaces_result (e : Element) :
  forall tb,
    no_open_brace tb ->
    match _namespaces tb e with
    | Ok tb' => no_open_brace tb' /\ existsb open_brace_tag (tags e) = false
    | Raise ex => ex = ValueError
    end.
Proof.
  induction e as [t x cs IH] using Element_ind'. intros tb Htb.
  rewrite _namespaces_mk. cbn [tags existsb].
  assert (Hfirst :
            match (match t with
                   | None => Ok tb
                   | Some name =>
                       match assoc_get (qnames tb) name with
                       | Some _ => Ok tb
                       | None => add_qname tb name
                       end
                   end) with
            | Ok tb1 => no_open_brace tb1 /\ open_brace_tag t = false
            | Raise ex => ex = ValueError
            end).
  { destruct t as [name |]; [| now split].
    destruct (assoc_get (qnames tb) name) eqn:E.
    - split; [exact Htb |]. apply Htb. congruence.
    - pose proof (add_qname_result tb name Htb) as H.
      destruct (add_qname tb name); [exact H | apply H]. }
  destruct (match t with
            | None => Ok tb
            | Some name => _
            end) as [tb1 | ex]; cbn [bind].
  2: { exact Hfirst. }
  destruct Hfirst as [Htb1 ->]. cbn [orb]. clear Htb tb.
  revert tb1 Htb1. induction IH as [|c r IHc _ IHr]; intros tb1 Htb1.
  - now split.
  - cbn [fold_left bind flat_map]. rewrite existsb_app.
    specialize (IHc tb1 Htb1). destruct (_namespaces tb1 c) as [tb2 | ex]; cbn [bind].
    + destruct IHc as [Htb2 ->]. cbn [orb]. now apply IHr.
    + now rewrite _namespaces_after_raise.
Qed.

(** X17.  A field name that starts with an opening brace and has no closing
    brace stops the XML conversion as soon as there is a data row:
    [tree.write] takes the name for a name in a namespace and raises
    [ValueError] before it writes anything, so [-x] ends with that
    exception uncaught, prints nothing and leaves an empty output file. *)
Theorem open_brace_name_stops_the_xml_output
    (content : list byte) (fieldnames : list string) (rows : list (list string))
    (prog input_file : string) (w : World) :
  files w input_file = Some content ->
  csv_reader (infile_lines content) = (fieldnames :: rows, None) ->
  Exists (fun name => open_brace_name name = true) fieldnames ->
  Exists (fun row => row <> []) rows ->
  main [prog; input_file; "-x"] w
  = (Uncaught ValueError, write_file (write_file w "output.xml" []) "output.xml" []).
Proof.
  intros Hf Hread Hname Hrow.
  apply Exists_exists in Hname. destruct Hname as [name [Hname Hopen]].
  apply Exists_exists in Hrow. destruct Hrow as [row [Hrow Hne]].
  set (data := map (DictReader_row fieldnames) (filter not_blank rows)).
  assert (Htag : In (Some name) (tags (root_of_rows data))).
  { apply (in_tags_root data (DictReader_row fieldnames row)).
    - now apply in_data.
    - apply DictReader_row_keys. left. now exists name. }
  assert (Hwrite : ElementTree_write (root_of_rows data) = (EmptyString, Some ValueError)).
  { unfold ElementTree_write.
    pose proof (_namespaces_result (root_of_rows data) {| qnames := []; namespaces := [] |})
      as H.
    destruct (_namespaces _ _) as [tb | ex].
    - destruct H as [_ H]; [intros x Hx; now contradiction Hx |].
      exfalso. apply Bool.not_true_iff_false in H. apply H.
      apply existsb_exists. exists (Some name). now split.
    - rewrite H; [reflexivity |]. intros x Hx. now contradiction Hx. }
  unfold main. cbn [List.length Nat.eqb negb nth].
  change (String.eqb "-x" "-c") with false. change (String.eqb "-x" "-j") with false.
  change (String.eqb "-x" "-x") with true. cbv iota.
  rewrite (convert_to_xml_ok _ _ _ _ _ Hf (xml_root_rows _ _ _ Hread)).
  fold data. rewrite Hwrite. reflexivity.
Qed.

Lemma open_brace_name_stops_the_xml_output_witness :
  main ["Formater.py"; "in.tsv"; "-x"] (world_with open_brace_input)
  = (Uncaught ValueError,
     write_file (write_file (world_with open_brace_input) "output.xml" [])
                "output.xml" []).
Proof.
  apply (open_brace_name_stops_the_xml_output open_brace_input ["{a"; "b"] [["1"; "2"]]).
  - reflexivity.
  - reflexivity.
  - left. reflexivity.
  - left. discriminate.
Defined.

(** X18.  When no field name starts with an opening brace and no data row
    has more fields than the header, the XML conversion succeeds, also with
    repeated names and short rows: [main] returns and prints the completion
    message, and [output.xml] holds the tree of the rows written with every
    tag as it is, without namespace declarations. *)
Theorem xml_conversion_succeeds
    (content : list byte) (fieldnames : list string) (rows : list (list string))
    (prog input_file : string) (w : World) :
  files w input_file = Some content ->
  csv_reader (infile_lines content) = (fieldnames :: rows, None) ->
  Forall (fun name => Str.starts_with "{" name = false) fieldnames ->
  Forall (fun row => List.length row <= List.length fieldnames) rows ->
  main [prog; input_file; "-x"] w
  = (Returned,
     print (write_file (write_file w "output.xml" []) "output.xml"
              (utf8_encode
                 (render (root_of_rows (map (DictReader_row fieldnames)
                                            (filter not_blank rows))))))
           (complete_message "output.xml")).
Proof.
  intros Hf Hread Hnames Hrows.
  unfold main. cbn [List.length Nat.eqb negb nth].
  change (String.eqb "-x" "-c") with false. change (String.eqb "-x" "-j") with false.
  change (String.eqb "-x" "-x") with true. cbv iota.
  rewrite (convert_to_xml_ok _ _ _ _ _ Hf (xml_root_rows _ _ _ Hread)).
  rewrite (ElementTree_write_render _ (root_writable _ _ Hnames Hrows)).
  reflexivity.
Qed.

Lemma xml_conversion_succeeds_witness :
  main ["Formater.py"; "in.tsv"; "-x"] (world_with repeated_name_input)
  = (Returned,
     print (write_file (write_file (world_with repeated_name_input) "output.xml" [])
              "output.xml"
              (utf8_encode
                 (render (root_of_rows (map (DictReader_row ["a"; "a"])
                                            (filter not_blank [["1"; "2"]]))))))
           (complete_message "output.xml")).
Proof.
  apply (xml_conversion_succeeds repeated_name_input ["a"; "a"] [["1"; "2"]]).
  - reflexivity.
  - reflexivity.
  - repeat constructor.
  - repeat constructor.
Defined.

(** ** A failure of the reader after some rows *)

(** X19.  When the reader fails after some rows, [-c] has written the rows
    before the failure: the output file holds their records and the
    exception is raised from the middle of the loop.  [-j] and [-x] raise
    the same exception and make no output file.  Here the input is cut at
    the end of a line into a part that is read as whole records and a part
    on which the reader fails. *)
Theorem rows_before_a_failure_are_written_to_csv
    (before after : list byte) (rows1 rows2 : list (list string)) (e : exception)
    (input_file output_file : string) (w : World) :
  whole_lines before ->
  Reader_run parse_reset (infile_lines before) = (rows1, Ok parse_reset) ->
  csv_reader (infile_lines after) = (rows2, Some e) ->
  input_file <> output_file ->
  files w input_file = Some (before ++ after)%list ->
  convert_to_csv input_file output_file w
  = (Some e,
     write_file (write_file w output_file []) output_file
       (utf8_encode (String.concat EmptyString (map writerow (rows1 ++ rows2)%list)))) /\
  convert_to_json input_file output_file w = (Some e, w) /\
  convert_to_xml input_file output_file w = (Some e, w).
Proof.
  intros Hwhole Hrows1 Hafter Hne Hf.
  assert (Hread : csv_reader (infile_lines (before ++ after))
                  = ((rows1 ++ rows2)%list, Some e)).
  { rewrite (infile_lines_app _ _ Hwhole), (csv_reader_app _ _ _ Hrows1), Hafter.
    reflexivity. }
  assert (Hdata : json_data (before ++ after) = Raise e).
  { unfold json_data. rewrite Hread. now destruct (rows1 ++ rows2)%list. }
  split; [| split].
  - pose proof (convert_to_csv_eq input_file output_file w _ Hf) as H. cbv zeta in H.
    apply String.eqb_neq in Hne. rewrite Hne in H. rewrite H.
    unfold csv_text. rewrite Hread. reflexivity.
  - exact (convert_to_json_raise _ _ _ _ _ Hf Hdata).
  - apply (convert_to_xml_raise _ _ _ _ _ Hf). unfold xml_root. now rewrite Hdata.
Qed.

Lemma rows_before_a_failure_are_written_to_csv_witness :
  convert_to_csv "in.tsv" "output.csv" (world_with oversized_row_input)
  = (Some (csv_Error field_larger_than_field_limit),
     write_file (write_file (world_with oversized_row_input) "output.csv" [])
       "output.csv"
       (utf8_encode (String.concat EmptyString (map writerow ([["a"; "b"]] ++ [])%list)))) /\
  convert_to_json "in.tsv" "output.csv" (world_with oversized_row_input)
  = (Some (csv_Error field_larger_than_field_limit), world_with oversized_row_input) /\
  convert_to_xml "in.tsv" "output.csv" (world_with oversized_row_input)
  = (Some (csv_Error field_larger_than_field_limit), world_with oversized_row_input).
Proof.
  apply (rows_before_a_failure_are_written_to_csv
           (list_byte_of_string ("a" ++ tab ++ "b" ++ nl)) oversized_input).
  - reflexivity.
  - reflexivity.
  - unfold oversized_input. apply csv_reader_overlong. rewrite N2Nat.id. reflexivity.
  - discriminate.
  - reflexivity.
Defined.

(** ** A quote that is never closed *)

(** A line without a quote, read inside a quoted field. *)
Lemma quoted_line (line : string) (fs : list string) (cur : string) :
  Str.mem DQUOTE line = false ->
  (Str.len (cur ++ line) <= field_limit)%N ->
  parse_process_line (mkReader IN_QUOTED_FIELD fs cur) line
  = Ok (mkReader IN_QUOTED_FIELD fs (cur ++ line)).
Proof.
  intros Hq Hlen.
  rewrite <- (StrFacts.append_nil_r line) at 1.
  now rewrite (quoted_chars line fs cur EmptyString Hq Hlen).
Qed.

Lemma quoted_lines (lines : list string) :
  forall (fs : list string) (cur : string),
    Str.mem DQUOTE (String.concat EmptyString lines) = false ->
    (Str.len (cur ++ String.concat EmptyString lines) <= field_limit)%N ->
    Reader_run (mkReader IN_QUOTED_FIELD fs cur) lines
    = ([], Ok (mkReader IN_QUOTED_FIELD fs (cur ++ String.concat EmptyString lines))).
Proof.
  induction lines as [|l ls IH]; intros fs cur Hq Hlen.
  - cbn. now rewrite StrFacts.append_nil_r.
  - rewrite StrFacts.concat_nil_cons in *.
    assert (Hq2 : Str.mem DQUOTE l = false
                  /\ Str.mem DQUOTE (String.concat EmptyString ls) = false).
    { clear - Hq. induction l as [|c r IHl]; [now split |].
      cbn [append Str.mem] in *. apply orb_false_iff in Hq. destruct Hq as [Hc Hr].
      destruct (IHl Hr) as [H1 H2]. split; [now rewrite Hc, H1 | exact H2]. }
    destruct Hq2 as [Hl Hls].
    rewrite <- StrFacts.append_assoc in Hlen.
    cbn [Reader_run]. rewrite (quoted_line l fs cur Hl).
    + cbn [state]. rewrite (IH fs (cur ++ l) Hls Hlen).
      now rewrite StrFacts.append_assoc.
    + rewrite len_app in Hlen. lia.
Qed.

(** ** The text of the JSON output *)





(** ** The items of the XML output *)








(** ** Files of plain lines *)



(** ** The entries of a row that is not longer than the header *)






(** ** The keys written in a JSON object *)






(** ** A quote that is never closed, and the field size limit *)

(** The characters of a quoted field that outgrows the limit. *)
Lemma quoted_chars_overflow (t : string) :
  forall (fs : list string) (cur rest : string),
    Str.mem DQUOTE t = false ->
    (Str.len cur <= field_limit)%N ->
    (field_limit < Str.len (cur ++ t))%N ->
    parse_process_line (mkReader IN_QUOTED_FIELD fs cur) (t ++ rest)
    = Raise (csv_Error field_larger_than_field_limit).
Proof.
  induction t as [|c r IH]; intros fs cur rest Hq Hcur Hlen.
  - rewrite StrFacts.append_nil_r in Hlen. lia.
  - cbn [Str.mem] in Hq. apply orb_false_iff in Hq. destruct Hq as [Hc Hr].
    change (String c r ++ rest) with (String c (r ++ rest)).
    cbn [parse_process_line parse_process_char state]. rewrite Hc.
    destruct (parse_add_char_spec (mkReader IN_QUOTED_FIELD fs cur) c)
      as [[_ ->] | [Hroom ->]]; [reflexivity |].
    cbn [bind state fields field] in *. apply IH; [exact Hr | |].
    + rewrite StrFacts.len_snoc. lia.
    + now rewrite StrFacts.append_assoc.
Qed.

Lemma quoted_lines_overflow (lines : list string) :
  forall (fs : list string) (cur : string),
    Str.mem DQUOTE (String.concat EmptyString lines) = false ->
    (Str.len cur <= field_limit)%N ->
    (field_limit < Str.len (cur ++ String.concat EmptyString lines))%N ->
    Reader_run (mkReader IN_QUOTED_FIELD fs cur) lines
    = ([], Raise (csv_Error field_larger_than_field_limit)).
Proof.
  induction lines as [|l ls IH]; intros fs cur Hq Hcur Hlen.
  - cbn in Hlen. rewrite StrFacts.append_nil_r in Hlen. lia.
  - rewrite StrFacts.concat_nil_cons in *.
    assert (Hq2 : Str.mem DQUOTE l = false
                  /\ Str.mem DQUOTE (String.concat EmptyString ls) = false).
    { clear - Hq. induction l as [|c r IHl]; [now split |].
      cbn [append Str.mem] in *. apply orb_false_iff in Hq. destruct Hq as [Hc Hr].
      destruct (IHl Hr) as [H1 H2]. split; [now rewrite Hc, H1 | exact H2]. }
    destruct Hq2 as [Hl Hls].
    rewrite <- StrFacts.append_assoc in Hlen. cbn [Reader_run].
    destruct (N.leb_spec (Str.len (cur ++ l)) field_limit) as [Hfit | Hover].
    + rewrite (quoted_line l fs cur Hl Hfit). cbn [state]. now apply IH.
    + rewrite <- (StrFacts.append_nil_r l) at 1.
      now rewrite (quoted_chars_overflow l fs cur EmptyString Hl Hcur Hover).
Qed.

(** X20.  A quote that is opened at the start of a line and never closed
    swallows the rest of the file.  As long as what follows the quote is
    not longer than the field size limit of the csv module, 131072
    characters, no exception is raised, and everything after the quote, the
    tabs and the line ends included, becomes the one field of the last row:
    the lines after it are not rows of their own.  When it is longer, the
    reader raises its field size error after the rows before the quote. *)
Theorem open_quote_swallows_the_rest
    (content : list byte) (lines1 lines2 : list string) (rows1 : list (list string))
    (t : string) :
  infile_lines content = (lines1 ++ String DQUOTE t :: lines2)%list ->
  Reader_run parse_reset lines1 = (rows1, Ok parse_reset) ->
  Str.mem DQUOTE (String.concat EmptyString (t :: lines2)) = false ->
  csv_reader (infile_lines content)
  = if (Str.len (String.concat EmptyString (t :: lines2)) <=? field_limit)%N
    then ((rows1 ++ [[String.concat EmptyString (t :: lines2)]])%list, None)
    else (rows1, Some (csv_Error field_larger_than_field_limit)).
Proof.
  intros Hlines Hrows1 Hq. rewrite Hlines.
  rewrite (csv_reader_app lines1 _ rows1 Hrows1).
  unfold csv_reader at 1 2.
  change (Reader_run parse_reset (String DQUOTE t :: lines2))
    with (Reader_run (mkReader IN_QUOTED_FIELD [] EmptyString) (t :: lines2)).
  destruct (N.leb_spec (Str.len (String.concat EmptyString (t :: lines2))) field_limit)
    as [Hfit | Hover].
  - rewrite (quoted_lines (t :: lines2) [] EmptyString Hq Hfit).
    assert (Hpending : pending (mkReader IN_QUOTED_FIELD []
                                  (String.concat EmptyString (t :: lines2))) = true)
      by apply orb_true_r.
    change (EmptyString ++ String.concat EmptyString (t :: lines2))
      with (String.concat EmptyString (t :: lines2)).
    rewrite Hpending. reflexivity.
  - rewrite (quoted_lines_overflow (t :: lines2) [] EmptyString Hq); [| discriminate | exact Hover].
    cbn [fst snd]. now rewrite app_nil_r.
Qed.

Lemma open_quote_swallows_the_rest_witness :
  csv_reader (infile_lines open_quote_input)
  = (([["a"; "b"]]
        ++ [[String.concat EmptyString
               [String "x" (String TAB (String "y" nl)); String "z" nl]]])%list,
     None).
Proof.
  apply (open_quote_swallows_the_rest open_quote_input
           [String "a" (String TAB (String "b" nl))] [String "z" nl] [["a"; "b"]]
           (String "x" (String TAB (String "y" nl)))).
  - reflexivity.
  - reflexivity.
  - reflexivity.
Defined.

(** * The claims *)

(** ** C1: a row shorter than the header, converted to JSON *)




(** ** C2: a row longer than the header *)




(** ** C3: the keys of the output rows *)




(** ** C7: the XML document *)




(** ** C4: as many rows out as lines in *)




(** ** C5: a blank line *)



(** ** C6: decoding and the write stage *)

Lemma json_data_oversized :
  json_data oversized_input = Raise (csv_Error field_larger_than_field_limit).
Proof.
  unfold json_data, oversized_input.
  rewrite csv_reader_overlong; [reflexivity |].
  rewrite N2Nat.id. reflexivity.
Qed.

(** C6, as stated, fails.  The claim says that the program always reaches
    the write stage.  For an input of 131073 bytes [a], one field longer than
    the limit of the csv module, flag -j, the reader raises before
    [output.json] is opened: the run ends on the exception and leaves the
    world as it was, without the output file. *)
Lemma write_stage_always_reached_counterexample :
  let w := world_with oversized_input in
  convert_to_json "in.tsv" "output.json" w =
    (Some (csv_Error field_larger_than_field_limit), w) /\
  main ["Formater.py"; "in.tsv"; "-j"] w =
    (Uncaught (csv_Error field_larger_than_field_limit), w) /\
  files w "output.json" = None.
Proof.
  intros w.
  assert (H : convert_to_json "in.tsv" "output.json" w =
              (Some (csv_Error field_larger_than_field_limit), w)).
  { apply (convert_to_json_raise "in.tsv" "output.json" w oversized_input);
      [reflexivity | exact json_data_oversized]. }
  split; [exact H |]. split; [| reflexivity].
  rewrite main_json, H. reflexivity.
Qed.

(** C6, amended.  For every input file, whatever its bytes, decoding never
    fails: the text has one character for each byte, the one with the code
    of the byte (so no byte is unmappable and no placeholder is ever put).
    The CSV converter opens its output before it reads, so it always reaches
    the write stage; it stops early only on a field larger than the field
    size limit.  The JSON and XML converters reach the write stage unless
    the reader raises, which it does only for a field larger than the field
    size limit, and so never for an input of at most 131072 bytes. *)
Theorem decoding_never_fails
    (w : World) (input_file output_file : string) (content : list byte) :
  files w input_file = Some content ->
  (String.length (decode_latin1 content) = List.length content /\
   forall i b, nth_error content i = Some b ->
               exists c, String.get i (decode_latin1 content) = Some c /\
                         N_of_ascii c = Byte.to_N b) /\
  (exists out e,
      convert_to_csv input_file output_file w =
        (e, write_file (write_file w output_file []) output_file (utf8_encode out)) /\
      (e = None \/ e = Some (csv_Error field_larger_than_field_limit))) /\
  ((exists data,
       json_data content = Ok data /\
       convert_to_json input_file output_file w =
         (None, write_file w output_file (utf8_encode (json_dump data)))) \/
   (convert_to_json input_file output_file w =
      (Some (csv_Error field_larger_than_field_limit), w) /\
    (field_limit < N.of_nat (List.length content))%N)) /\
  ((exists root,
       xml_root content = Ok root /\
       convert_to_xml input_file output_file w =
         (snd (ElementTree_write root),
          write_file (write_file w output_file []) output_file
                     (utf8_encode (fst (ElementTree_write root))))) \/
   (convert_to_xml input_file output_file w =
      (Some (csv_Error field_larger_than_field_limit), w) /\
    (field_limit < N.of_nat (List.length content))%N)).
Proof.
  intros Hf.
  split.
  { split; [apply decode_latin1_length |].
    intros i b Hb. exists (ascii_of_byte b).
    split; [now apply decode_latin1_get | apply code_of_decoded_byte]. }
  split.
  { pose proof (convert_to_csv_eq input_file output_file w content Hf) as H.
    cbv zeta in H. do 2 eexists. split; [exact H |].
    destruct (snd (csv_text _)) as [e |] eqn:E; [right | now left].
    now destruct (csv_text_error _ _ E) as [-> _]. }
  split.
  - destruct (json_data content) as [data | e] eqn:E.
    + left. exists data. split; [reflexivity |].
      exact (convert_to_json_ok _ _ _ _ _ Hf E).
    + right. destruct (json_data_error _ _ E) as [-> Hlim].
      split; [exact (convert_to_json_raise _ _ _ _ _ Hf E) | exact Hlim].
  - destruct (xml_root content) as [root | e] eqn:E.
    + left. exists root. split; [reflexivity |].
      exact (convert_to_xml_ok _ _ _ _ _ Hf E).
    + right. destruct (xml_root_error _ _ E) as [-> Hlim].
      split; [exact (convert_to_xml_raise _ _ _ _ _ Hf E) | exact Hlim].
Qed.

(** The theorem for the bytes 0x00, 0x80, 0xFF and a line feed. *)
Lemma decoding_never_fails_witness :
  let content := ["000"%byte; "128"%byte; "255"%byte; "010"%byte] in
  files (world_with content) "in.tsv" = Some content /\
  decode_latin1 content =
    String "000" (String "128" (String "255" (String "010" EmptyString))) /\
  String.length (decode_latin1 content) = List.length content.
Proof.
  intros content.
  assert (Hf : files (world_with content) "in.tsv" = Some content) by reflexivity.
  split; [exact Hf |]. split; [reflexivity |].
  exact (proj1 (proj1 (decoding_never_fails
                         (world_with content) "in.tsv" "output.json" content Hf))).
Defined.

(** ** C8: the wrong number of arguments *)

(** C8.  For every invocation whose argument list, the program name
    included, has not exactly three entries, which is every invocation that
    has not exactly two positional arguments, the program prints the usage
    message to standard output and exits with status 1; no file is created
    or written. *)
Theorem wrong_argument_count_is_usage_error (argv : list string) (w : World) :
  List.length argv <> 3 ->
  let r := main argv w in
  fst r = SystemExit 1 /\
  exit_status (fst r) = 1 /\
  stdout (snd r) = (stdout w ++ [usage_message])%list /\
  files (snd r) = files w.
Proof.
  intros H r. unfold r. rewrite (main_usage argv w H). repeat split.
Qed.

(** The theorem for one positional argument. *)
Lemma wrong_argument_count_is_usage_error_witness :
  let argv := ["Formater.py"; "in.tsv"] in
  let w := world_with scenario_input in
  List.length argv <> 3 /\
  fst (main argv w) = SystemExit 1 /\
  stdout (snd (main argv w)) = [usage_message] /\
  files (snd (main argv w)) = files w.
Proof.
  intros argv w.
  assert (H : List.length argv <> 3) by (simpl; lia).
  split; [exact H |].
  destruct (wrong_argument_count_is_usage_error argv w H) as [H1 [_ [H2 H3]]].
  split; [exact H1 |]. split; [exact H2 | exact H3].
Defined.

(** ** C9: an unknown flag *)

(** C9.  For every invocation with exactly two positional arguments whose
    second one is none of -c, -j and -x, the program exits with status 1 and
    prints a message that names the three valid flags; no file is created or
    written. *)
Theorem unknown_flag_is_error (prog input_file format_flag : string) (w : World) :
  format_flag <> "-c" ->
  format_flag <> "-j" ->
  format_flag <> "-x" ->
  let r := main [prog; input_file; format_flag] w in
  fst r = SystemExit 1 /\
  exit_status (fst r) = 1 /\
  stdout (snd r) = (stdout w ++ [invalid_flag_message])%list /\
  Str.contains "-c" invalid_flag_message = true /\
  Str.contains "-j" invalid_flag_message = true /\
  Str.contains "-x" invalid_flag_message = true /\
  files (snd r) = files w.
Proof.
  intros Hc Hj Hx r. unfold r.
  rewrite (main_invalid_flag prog input_file format_flag w Hc Hj Hx).
  repeat split.
Qed.

(** The theorem for the flag -z. *)
Lemma unknown_flag_is_error_witness :
  let w := world_with scenario_input in
  "-z" <> "-c" /\ "-z" <> "-j" /\ "-z" <> "-x" /\
  fst (main ["Formater.py"; "in.tsv"; "-z"] w) = SystemExit 1 /\
  stdout (snd (main ["Formater.py"; "in.tsv"; "-z"] w)) = [invalid_flag_message] /\
  files (snd (main ["Formater.py"; "in.tsv"; "-z"] w)) = files w.
Proof.
  intros w.
  assert (Hc : "-z" <> "-c") by discriminate.
  assert (Hj : "-z" <> "-j") by discriminate.
  assert (Hx : "-z" <> "-x") by discriminate.
  repeat (split; [assumption |]).
  destruct (unknown_flag_is_error "Formater.py" "in.tsv" "-z" w Hc Hj Hx)
    as [H1 [_ [H2 [_ [_ [_ H3]]]]]].
  split; [exact H1 |]. split; [exact H2 | exact H3].
Defined.

(** ** C10: determinism *)

(** C10.  For every argument list and every two worlds in which the input
    file has the same bytes (or is missing in both), the two runs end the
    same way, print the same, and leave every file either with the same
    bytes in both worlds or as each run found it: what is written is a
    function of the input bytes and the flag alone.  In particular, when the
    second world is the one the first run left, the second run leaves every
    file as it found it: the output files of the two runs are equal byte
    for byte. *)
Theorem conversion_is_deterministic (argv : list string) (w1 w2 : World) :
  files w1 (nth 1 argv EmptyString) = files w2 (nth 1 argv EmptyString) ->
  let r1 := main argv w1 in
  let r2 := main argv w2 in
  (fst r1 = fst r2 /\
   (exists printed,
       stdout (snd r1) = (stdout w1 ++ printed)%list /\
       stdout (snd r2) = (stdout w2 ++ printed)%list) /\
   forall p,
     files (snd r1) p = files (snd r2) p \/
     (files (snd r1) p = files w1 p /\ files (snd r2) p = files w2 p)) /\
  (w2 = snd r1 -> forall p, files (snd r2) p = files (snd r1) p).
Proof.
  intros H r1 r2.
  pose proof (main_same_run argv w1 w2 H) as Hsame.
  split; [exact Hsame |].
  intros E p. destruct Hsame as [_ [_ Hfiles]].
  destruct (Hfiles p) as [Hp | [_ Hp]].
  - symmetry. exact Hp.
  - fold r1 r2 in Hp. rewrite Hp. now rewrite E.
Qed.

(** The theorem for two runs in a row on the scenario input, flag -c. *)
Lemma conversion_is_deterministic_witness :
  let argv := ["Formater.py"; "in.tsv"; "-c"] in
  let w1 := world_with scenario_input in
  let w2 := snd (main argv w1) in
  files w1 (nth 1 argv EmptyString) = files w2 (nth 1 argv EmptyString) /\
  fst (main argv w1) = fst (main argv w2) /\
  files (snd (main argv w2)) "output.csv" = files (snd (main argv w1)) "output.csv".
Proof.
  intros argv w1 w2.
  assert (H : files w1 (nth 1 argv EmptyString) = files w2 (nth 1 argv EmptyString))
    by reflexivity.
  split; [exact H |].
  destruct (conversion_is_deterministic argv w1 w2 H) as [[Hend _] Htwice].
  split; [exact Hend |].
  exact (Htwice eq_refl "output.csv").
Defined.
